(** * thrift2flow: the type mapper and the declaration generator

    A shallow embedding of [src/main/types.js] (class [TypeConverter]) and
    [src/main/convert.js] (class [ThriftFileConverter]), and the properties
    of the specification checked against it.

    Conventions of the embedding:
    - JavaScript values that flow through [||], [&&] and template literals
      are kept as [jsval]: the falsy results ([false], [undefined], [null],
      the empty string) matter for the rule order of [convert];
    - a call that can raise returns [exc]; [console.warn] is a writer layer
      ([io]) that keeps the lines printed so far, also when the call raises;
    - an argument that the caller does not pass is [None] ([undefined]);
    - the AST of thriftrw, the clock, prettier and Node's [path] are not part
      of the repository: the AST is an inductive type, the clock and prettier
      are section variables, [path] is modelled on POSIX paths. *)

From Stdlib Require Import String Ascii List ZArith Bool Arith Lia.
From Stdlib Require Import Numbers.DecimalString.
Import ListNotations.
Open Scope string_scope.

(* ================================================================= *)
(** ** JavaScript values, exceptions and console output *)

Module JS.

Inductive error : Type :=
| TypeError.   (* property access on undefined, and the like *)

Inductive exc (A : Type) : Type :=
| OK (a : A)
| Throw (e : error).
Arguments OK {A} a.
Arguments Throw {A} e.

Definition bind {A B : Type} (m : exc A) (k : A -> exc B) : exc B :=
  match m with
  | OK a => k a
  | Throw e => Throw e
  end.

Notation "x <- m ;; k" := (bind m (fun x => k))
  (at level 61, m at next level, right associativity).

(** [Array.prototype.map] with a callback that may raise: the elements are
    visited in order and the first exception ends the traversal. *)
Fixpoint mapM {A B : Type} (f : A -> exc B) (l : list A) : exc (list B) :=
  match l with
  | [] => OK []
  | a :: l' => b <- f a ;; bs <- mapM f l' ;; OK (b :: bs)
  end.

Inductive jsval : Type :=
| JUndefined
| JNull
| JBool (b : bool)
| JNum (text : string)      (* a Number, kept as the text ToString gives *)
| JObject (text : string)   (* an object or function, with its ToString text *)
| JStr (s : string).

Definition nonempty (s : string) : bool :=
  match s with
  | EmptyString => false
  | String _ _ => true
  end.

(** ToBoolean. *)
Definition truthy (v : jsval) : bool :=
  match v with
  | JUndefined | JNull => false
  | JBool b => b
  | JNum text => negb (String.eqb text "0") && negb (String.eqb text "NaN")
  | JObject _ => true
  | JStr s => nonempty s
  end.

(** Number-to-string conversion of an integer. *)
Definition string_of_Z (z : Z) : string :=
  NilZero.string_of_int (Z.to_int z).

Definition string_of_nat (n : nat) : string :=
  NilZero.string_of_uint (Nat.to_uint n).

(** ToString, as a template literal applies it to a substitution. *)
Definition ToString (v : jsval) : string :=
  match v with
  | JUndefined => "undefined"
  | JNull => "null"
  | JBool true => "true"
  | JBool false => "false"
  | JNum text => text
  | JObject text => text
  | JStr s => s
  end.

(** [a || b]: the right operand is evaluated only when the left one is
    falsy. *)
Definition or_else (a : exc jsval) (b : exc jsval) : exc jsval :=
  v <- a ;; if truthy v then OK v else b.

(** [a && b]. *)
Definition and_then (a : exc jsval) (b : exc jsval) : exc jsval :=
  v <- a ;; if truthy v then b else OK v.

Notation "a ||| b" := (or_else a b) (at level 50, left associativity).
Notation "a &&& b" := (and_then a b) (at level 40, left associativity).

(** [Array.prototype.join] on an array of strings. *)
Definition join (sep : string) (l : list string) : string :=
  String.concat sep l.

(** The characters that string literals of this file cannot hold. *)
Definition dquote : string := String (ascii_of_nat 34) EmptyString.
Definition squote : string := String (ascii_of_nat 39) EmptyString.
Definition nl : string := String (ascii_of_nat 10) EmptyString.

(** Console output: the result of a call and the lines it printed. *)
Definition io (A : Type) : Type := (exc A * list string)%type.

Definition io_ret {A : Type} (a : A) : io A := (OK a, []).

Definition io_lift {A : Type} (m : exc A) : io A := (m, []).

Definition io_bind {A B : Type} (m : io A) (k : A -> io B) : io B :=
  match m with
  | (OK a, out) => let (r, out') := k a in (r, (out ++ out')%list)
  | (Throw e, out) => (Throw e, out)
  end.

Definition console_warn (line : string) : io unit := (OK tt, [line]).

Fixpoint io_mapM {A B : Type} (f : A -> io B) (l : list A) : io (list B) :=
  match l with
  | [] => io_ret []
  | a :: l' =>
      io_bind (f a) (fun b => io_bind (io_mapM f l') (fun bs => io_ret (b :: bs)))
  end.

End JS.
Import JS.

(* ================================================================= *)
(** ** The AST of thriftrw that the two classes read *)

Module Ast.

(** The tags a [BaseType] node can carry: the keys of
    [TypeConverter.primitives]. *)
Inductive primitive : Type :=
| binary | bool_ | byte | i8 | i16 | i32 | i64 | double | string_ | void.

(** A type reference. Only [Identifier] has a [name]; only [BaseType] has a
    [baseType] and carries annotations ([None]: no annotation object). *)
Inductive ThriftType : Type :=
| BaseType (baseType : primitive) (annotations : option (list (string * string)))
| Identifier (name : string)
| ListType (valueType : ThriftType)
| SetType (valueType : ThriftType)
| MapType (keyType valueType : ThriftType).

Record Field : Type := mkField {
  f_name : string;
  f_valueType : ThriftType;
  f_optional : bool
}.

Record FunctionDefinition : Type := mkFunction {
  fn_name : string;            (* fn.id.name *)
  fn_fields : list Field;
  fn_returns : ThriftType
}.

(** A member of an enum; [ed_value] is the [value] of its literal node when
    the member has one. *)
Record EnumDefinition : Type := mkEnumDefinition {
  ed_name : string;            (* d.id.name *)
  ed_value : option Z
}.

(** [def.value.value] of a constant: a string; a Number, given by the text
    that its conversion to a string yields; or nothing, for the constant
    values without a [value] property (lists, maps, identifiers such as
    [true]). *)
Inductive Literal : Type :=
| LString (s : string)
| LNumber (text : string)
| LNoValue.

(** A top-level definition. [Other] is a node whose [type] is none of the
    seven kinds; its [id] may be missing. *)
Inductive Defn : Type :=
| Struct (name : string) (fields : list Field)
| Exception (name : string) (fields : list Field)
| Union (name : string) (fields : list Field)
| Enum (name : string) (definitions : list EnumDefinition)
| Typedef (name : string) (valueType : ThriftType)
| Service (name : string) (functions : list FunctionDefinition)
| Const (name : string) (fieldType : ThriftType) (value : Literal)
| Other (type : string) (id : option string).

(** [def.type]. *)
Definition def_type (d : Defn) : string :=
  match d with
  | Struct _ _ => "Struct"
  | Exception _ _ => "Exception"
  | Union _ _ => "Union"
  | Enum _ _ => "Enum"
  | Typedef _ _ => "Typedef"
  | Service _ _ => "Service"
  | Const _ _ _ => "Const"
  | Other k _ => k
  end.

(** [def.id.name], when [def.id] is there. *)
Definition def_id (d : Defn) : option string :=
  match d with
  | Struct n _ | Exception n _ | Union n _ | Enum n _
  | Typedef n _ | Service n _ | Const n _ _ => Some n
  | Other _ id => id
  end.

(** [d instanceof Enum]. *)
Definition instanceof_Enum (d : Defn) : bool :=
  match d with
  | Enum _ _ => true
  | _ => false
  end.

(** [t.name] as a JavaScript value. *)
Definition type_name (t : ThriftType) : jsval :=
  match t with
  | Identifier n => JStr n
  | _ => JUndefined
  end.

End Ast.
Import Ast.

(* ================================================================= *)
(** ** types.js: class TypeConverter *)

Module TypeConverter.

(** [static primitives]. *)
Definition primitives (b : primitive) : string :=
  match b with
  | binary => "Buffer"
  | bool_ => "boolean"
  | byte => "number"
  | i8 => "number"
  | i16 => "number"
  | i32 => "number"
  | i64 => "Buffer"
  | double => "number"
  | string_ => "string"
  | void => "void"
  end.

(** [TypeConverter.primitives[t.baseType]]. *)
Definition primitives_lookup (t : ThriftType) : jsval :=
  match t with
  | BaseType b _ => JStr (primitives b)
  | _ => JUndefined
  end.

Fixpoint assoc (key : string) (o : list (string * string)) : option string :=
  match o with
  | [] => None
  | (k, v) :: o' => if String.eqb k key then Some v else assoc key o'
  end.

(** The members that an object literal inherits from [Object.prototype],
    each with the text that a template literal makes of it. *)
Definition Object_prototype : list (string * string) :=
  [ ("constructor", "function Object() { [native code] }");
    ("__defineGetter__", "function __defineGetter__() { [native code] }");
    ("__defineSetter__", "function __defineSetter__() { [native code] }");
    ("hasOwnProperty", "function hasOwnProperty() { [native code] }");
    ("__lookupGetter__", "function __lookupGetter__() { [native code] }");
    ("__lookupSetter__", "function __lookupSetter__() { [native code] }");
    ("isPrototypeOf", "function isPrototypeOf() { [native code] }");
    ("propertyIsEnumerable",
     "function propertyIsEnumerable() { [native code] }");
    ("toString", "function toString() { [native code] }");
    ("valueOf", "function valueOf() { [native code] }");
    ("__proto__", "[object Object]");
    ("toLocaleString", "function toLocaleString() { [native code] }") ].

(** [TypeConverter.i64Mappings[jsType]]: the table is an object literal, so
    a key that is not its own is looked up in [Object.prototype]. *)
Definition i64Mappings (jsType : string) : jsval :=
  if String.eqb jsType "Long" then JStr "Long"
  else if String.eqb jsType "Date" then JStr "Date"
  else match assoc jsType Object_prototype with
       | Some text => JObject text
       | None => JUndefined
       end.

(** [t.annotations && t.annotations['js.type']]. *)
Definition jsType_of (annotations : option (list (string * string))) : jsval :=
  match annotations with
  | None => JUndefined
  | Some o =>
      match assoc "js.type" o with
      | Some v => JStr v
      | None => JUndefined
      end
  end.

Definition annotation (t : ThriftType) : jsval :=
  match t with
  | BaseType i64 annotations =>
      match jsType_of annotations with
      | JStr jsType => if nonempty jsType then i64Mappings jsType else JStr ""
      | _ => JStr ""
      end
  | _ => JStr ""
  end.

(** The callback of [allDefinitions.find]: [value.id.name === defName]; it
    raises on a definition without [id]. *)
Definition name_matches (defName : jsval) (value : Defn) : exc bool :=
  match def_id value with
  | None => Throw TypeError
  | Some n =>
      OK (match defName with
          | JStr m => String.eqb n m
          | _ => false
          end)
  end.

(** [Array.prototype.find]. *)
Fixpoint find (p : Defn -> exc bool) (l : list Defn)
  : exc (option Defn) :=
  match l with
  | [] => OK None
  | d :: l' => b <- p d ;; if b then OK (Some d) else find p l'
  end.

(** [isEnum(def, allDefinitions)]; without a definition list the call of
    [find] on [undefined] raises. *)
Definition isEnum (def : ThriftType) (allDefinitions : option (list Defn))
  : exc jsval :=
  let defName := type_name def in
  match allDefinitions with
  | None => Throw TypeError
  | Some defs =>
      defValueType <- find (name_matches defName) defs ;;
      OK (match defValueType with
          | None => JUndefined
          | Some d => JBool (instanceof_Enum d)
          end)
  end.

(** [transformName(t.name)]: the function is declared on strings; a name
    that is not a string reaches it as its text. *)
Definition apply_transformName (transformName : string -> string) (name : jsval)
  : string :=
  transformName (ToString name).

Section Methods.

Variable transformName : string -> string.

Definition enumType (thriftValueType : ThriftType)
  (allDefinitions : option (list Defn)) : exc jsval :=
  isEnum thriftValueType allDefinitions &&&
  OK (JStr ("$Keys<typeof "
            ++ apply_transformName transformName (type_name thriftValueType)
            ++ ">")).

(** [arrayType] and [mapType] call back into [convert]; the recursive call is
    passed in. *)
Definition arrayType
  (convert : ThriftType -> option (list Defn) -> exc jsval)
  (thriftValueType : ThriftType) (allDefinitions : option (list Defn))
  : exc jsval :=
  match thriftValueType with
  | ListType valueType | SetType valueType =>
      v <- convert valueType allDefinitions ;;
      OK (JStr (ToString v ++ "[]"))
  | _ => OK (JBool false)
  end.

Definition mapType
  (convert : ThriftType -> option (list Defn) -> exc jsval)
  (t : ThriftType) (allDefinitions : option (list Defn)) : exc jsval :=
  match t with
  | MapType keyType valueType =>
      ktype <- convert keyType allDefinitions ;;
      vtype <- convert valueType allDefinitions ;;
      OK (JStr ("{[" ++ ToString ktype ++ "]: " ++ ToString vtype ++ "}"))
  | _ => OK JNull
  end.

Fixpoint convert (t : ThriftType) (allDefinitions : option (list Defn))
  {struct t} : exc jsval :=
  arrayType convert t allDefinitions |||
  enumType t allDefinitions |||
  mapType convert t allDefinitions |||
  OK (annotation t) |||
  OK (primitives_lookup t) |||
  OK (JStr (apply_transformName transformName (type_name t))).

End Methods.

(** An instance. [convert] is an instance property of the class (an arrow
    function assigned in the class body), so a caller reaches it through the
    object: [this.types.convert]. *)
Record t : Type := mk {
  transformName : string -> string;
  convert_ : ThriftType -> option (list Defn) -> exc jsval
}.

(** [new TypeConverter(transformName)]. *)
Definition new (transformName : string -> string) : t :=
  {| transformName := transformName; convert_ := convert transformName |}.

End TypeConverter.

(* ================================================================= *)
(** ** Node's [path] module, POSIX flavour *)

(** [path] belongs to the runtime, not to the repository. The functions
    below follow its documented behaviour on the paths that reach them here:
    paths without an empty component (no doubled and no trailing slash), as
    [path.resolve] and [path.relative] return them. [normalize], and with it
    [join] and [resolve], handle the general case. *)
Module Path.

Definition slash : ascii := ascii_of_nat 47.

(** [s.split('/')]. *)
Fixpoint split (s : string) : list string :=
  match s with
  | EmptyString => [EmptyString]
  | String a s' =>
      if Ascii.eqb a slash then EmptyString :: split s'
      else match split s' with
           | [] => [String a EmptyString]
           | x :: xs => String a x :: xs
           end
  end.

(** [s.indexOf('/') !== -1]. *)
Fixpoint has_slash (s : string) : bool :=
  match s with
  | EmptyString => false
  | String a s' => Ascii.eqb a slash || has_slash s'
  end.

Definition isAbsolute (p : string) : bool :=
  match p with
  | String a _ => Ascii.eqb a slash
  | EmptyString => false
  end.

Fixpoint ends_with_slash (p : string) : bool :=
  match p with
  | EmptyString => false
  | String a EmptyString => Ascii.eqb a slash
  | String _ p' => ends_with_slash p'
  end.

(** The components of a path that are not empty. *)
Definition components (p : string) : list string :=
  filter nonempty (split p).

(** [normalizeString]: [acc] holds the components kept so far, the last one
    first. *)
Fixpoint normalizeString (allowAboveRoot : bool) (segs acc : list string)
  : list string :=
  match segs with
  | [] => rev acc
  | seg :: segs' =>
      if String.eqb seg "" || String.eqb seg "." then
        normalizeString allowAboveRoot segs' acc
      else if String.eqb seg ".." then
        match acc with
        | last :: acc' =>
            if String.eqb last ".." then
              normalizeString allowAboveRoot segs'
                (if allowAboveRoot then ".." :: acc else acc)
            else normalizeString allowAboveRoot segs' acc'
        | [] =>
            normalizeString allowAboveRoot segs'
              (if allowAboveRoot then [".."] else [])
        end
      else normalizeString allowAboveRoot segs' (seg :: acc)
  end.

Definition normalize (p : string) : string :=
  if negb (nonempty p) then "."
  else
    let abs := isAbsolute p in
    let trailingSeparator := ends_with_slash p in
    let r := join "/" (normalizeString (negb abs) (split p) []) in
    if negb (nonempty r) then
      if abs then "/" else if trailingSeparator then "./" else "."
    else
      let r := if trailingSeparator then r ++ "/" else r in
      if abs then "/" ++ r else r.

(** [path.join(a, b)]. *)
Definition join2 (a b : string) : string :=
  match nonempty a, nonempty b with
  | false, false => "."
  | true, false => normalize a
  | false, true => normalize b
  | true, true => normalize (a ++ "/" ++ b)
  end.

(** [path.resolve(p)] in the working directory [cwd] (an absolute path). *)
Definition resolve (cwd p : string) : string :=
  let full := if isAbsolute p then p else cwd ++ "/" ++ p in
  "/" ++ join "/" (normalizeString false (split full) []).

(** [path.dirname(p)]. *)
Definition dirname (p : string) : string :=
  match removelast (split p) with
  | [] => "."
  | [EmptyString] => "/"
  | init => join "/" init
  end.

(** [path.basename(p)]. *)
Definition basename (p : string) : string :=
  last (components p) "".

(** [s] without the suffix [ext], when [s] ends with [ext]. *)
Fixpoint strip_suffix (ext s : string) : option string :=
  if String.eqb s ext then Some EmptyString
  else match s with
       | EmptyString => None
       | String a s' =>
           match strip_suffix ext s' with
           | Some r => Some (String a r)
           | None => None
           end
       end.

(** [path.basename(p, ext)]: the extension is dropped from the last
    component unless it is the whole component. *)
Definition basename_ext (p ext : string) : string :=
  if String.eqb p ext then ""
  else
    let b := basename p in
    match strip_suffix ext b with
    | Some r => if nonempty r && nonempty ext then r else b
    | None => b
    end.

Fixpoint strip_common (a b : list string) : list string * list string :=
  match a, b with
  | x :: a', y :: b' =>
      if String.eqb x y then strip_common a' b' else (a, b)
  | _, _ => (a, b)
  end.

(** [path.relative(from, to)] on two resolved paths. *)
Definition relative (from to : string) : string :=
  let (up, down) := strip_common (components from) (components to) in
  join "/" (map (fun _ => "..") up ++ down)%list.

End Path.

(* ================================================================= *)
(** ** convert.js: class ThriftFileConverter *)

Module ThriftFileConverter.

(** What the methods read of [this.thrift]: the definitions of the entry
    file ([asts[filename].definitions]) and the keys of [idls]. *)
Record Thrift : Type := mkThrift {
  definitions : list Defn;
  idls : list string
}.

Record t : Type := mk {
  thriftPath : string;
  thrift : Thrift;
  types : TypeConverter.t;
  transformName : string -> string;
  enumvalues : bool;
  withsource : bool
}.

Section Methods.

(** The process environment: the working directory, the text of
    [new Date().toString()], and [prettier.format] with the flow parser. *)
Variable cwd : string.
Variable now : string.
Variable prettier_format : string -> exc string.

(** The constructor; [parsed] is the result of [new Thrift(...)]. *)
Definition new (thriftPath : string) (parsed : Thrift)
  (transformName : string -> string) (enumvalues withsource : bool) : t :=
  {| thriftPath := Path.resolve cwd thriftPath;
     thrift := parsed;
     types := TypeConverter.new transformName;
     transformName := transformName;
     enumvalues := enumvalues;
     withsource := withsource |}.

Variable this : t.

Definition isOptional (field : Field) : bool := f_optional field.

(** Every call of [this.types.convert] in this class passes one argument. *)
Definition generateStructContents (fields : list Field) : exc string :=
  entries <- mapM (fun f =>
               v <- TypeConverter.convert_ (types this) (f_valueType f) None ;;
               OK (f_name f ++ (if isOptional f then "?" else "") ++ ": "
                   ++ ToString v ++ ";"))
             fields ;;
  OK ("{|" ++ join nl entries ++ "|}").

Definition generateStruct (name : string) (fields : list Field) : exc string :=
  contents <- generateStructContents fields ;;
  OK ("export type " ++ transformName this name ++ " = " ++ contents ++ ";").

Definition generateUnionContents (fields : list Field) : exc string :=
  match length fields with
  | O => OK "{||}"
  | S _ =>
      alts <- mapM (fun f =>
                v <- TypeConverter.convert_ (types this) (f_valueType f) None ;;
                OK ("{|" ++ f_name f ++ ": " ++ ToString v ++ "|}"))
              fields ;;
      OK (join " | " alts)
  end.

Definition generateUnion (name : string) (fields : list Field) : exc string :=
  contents <- generateUnionContents fields ;;
  OK ("export type " ++ transformName this name ++ " = " ++ contents ++ ";").

(** [[...fn.fields]] copies the parameter array; the copy has the same
    elements. *)
Definition generateFunction (fn : FunctionDefinition) : exc string :=
  params <- match length (fn_fields fn) with
            | O => OK ""
            | S _ => generateStructContents (fn_fields fn)
            end ;;
  returns <- TypeConverter.convert_ (types this) (fn_returns fn) None ;;
  OK (fn_name fn ++ ": (" ++ params ++ ") => " ++ ToString returns).

Definition generateService (name : string) (functions : list FunctionDefinition)
  : exc string :=
  fns <- mapM generateFunction functions ;;
  OK ("export type " ++ transformName this name ++ " = {" ++ nl
      ++ join "," fns ++ "};").

Definition generateTypedef (name : string) (valueType : ThriftType) : exc string :=
  v <- TypeConverter.convert_ (types this) valueType None ;;
  OK ("export type " ++ transformName this name ++ " = " ++ ToString v ++ ";").

(** [l.map((d, index) => f d index)], counting from [index]. *)
Fixpoint map_indexed {A B : Type} (f : A -> nat -> B) (index : nat) (l : list A)
  : list B :=
  match l with
  | [] => []
  | d :: l' => f d index :: map_indexed f (S index) l'
  end.

Definition generateEnumValues (definitions : list EnumDefinition) : string :=
  join " | "
    (map_indexed (fun d index =>
                    match ed_value d with
                    | Some value => string_of_Z value
                    | None => string_of_nat index
                    end)
       0 definitions).

Definition generateEnumKeys (definitions : list EnumDefinition) : string :=
  join " | " (map (fun d => dquote ++ ed_name d ++ dquote) definitions) ++ ";".

Definition generateEnum (name : string) (definitions : list EnumDefinition)
  : string :=
  if enumvalues this then
    "export type " ++ transformName this name ++ " = "
    ++ generateEnumValues definitions ++ ";" ++ nl
    ++ "       export type " ++ transformName this name ++ "Keys = "
    ++ generateEnumKeys definitions ++ ";"
  else
    "export type " ++ transformName this name ++ "Values = "
    ++ generateEnumValues definitions ++ ";" ++ nl
    ++ "      export type " ++ transformName this name ++ " = "
    ++ generateEnumKeys definitions ++ ";".

Definition generateConst (name : string) (fieldType : ThriftType)
  (literal : Literal) : exc string :=
  (* string values need to be in quotes *)
  let value := match literal with
               | LString s => JStr ("'" ++ s ++ "'")
               | LNumber text => JNum text
               | LNoValue => JUndefined
               end in
  ty <- TypeConverter.convert_ (types this) fieldType None ;;
  OK ("export const " ++ transformName this name ++ ": " ++ ToString ty
      ++ " = " ++ ToString value ++ ";").

Definition convertDefinitionToCode (def : Defn) : io jsval :=
  match def with
  | Struct name fields | Exception name fields =>
      io_lift (s <- generateStruct name fields ;; OK (JStr s))
  | Union name fields =>
      io_lift (s <- generateUnion name fields ;; OK (JStr s))
  | Enum name definitions =>
      io_ret (JStr (generateEnum name definitions))
  | Typedef name valueType =>
      io_lift (s <- generateTypedef name valueType ;; OK (JStr s))
  | Service name functions =>
      io_lift (s <- generateService name functions ;; OK (JStr s))
  | Const name fieldType value =>
      io_lift (s <- generateConst name fieldType value ;; OK (JStr s))
  | Other type id =>
      io_bind
        (console_warn
           (Path.basename (thriftPath this) ++ ": Skipping " ++ type ++ " "
            ++ match id with
               | Some name => name
               | None => "?"
               end))
        (fun _ => io_ret JNull)
  end.

Definition getImportAbsPaths : list string :=
  map (fun p => Path.resolve cwd p) (idls (thrift this)).

Definition generateImports : string :=
  join nl
    (map (fun relpath =>
            "import * as " ++ Path.basename relpath ++ " from '" ++ relpath
            ++ ".js';")
       (map (fun p => if negb (Path.has_slash p) then "./" ++ p else p)
          (map (fun p =>
                  Path.join2
                    (Path.dirname
                       (Path.relative (Path.dirname (thriftPath this)) p))
                    (Path.basename_ext p ".thrift"))
             (filter (fun p => negb (String.eqb p (thriftPath this)))
                getImportAbsPaths)))).

(** The text handed to [prettier.format]. *)
Definition flowFileText (blocks : list jsval) : string :=
  join (nl ++ nl)
    (map ToString
       (filter truthy
          (JStr "// @flow"
           :: JStr ("// Generated by thrift2flow at " ++ now
                    ++ (if withsource this
                        then nl ++ "// Source: " ++ thriftPath this
                        else ""))
           :: JStr generateImports
           :: blocks))).

Definition generateFlowFile : io string :=
  io_bind (io_mapM convertDefinitionToCode (definitions (thrift this)))
    (fun blocks => io_lift (prettier_format (flowFileText blocks))).

End Methods.

End ThriftFileConverter.

(* ================================================================= *)
(** ** The rules of the specification, written from its words *)

Module Spec.

Section TypeMapper.

Variable transformName : string -> string.
Variable defs : list Defn.

(** The ordered rules of the type mapper. A rule answers [None] when it does
    not apply to the reference. *)
Definition is_enum_named (n : string) (d : Defn) : bool :=
  instanceof_Enum d &&
  match def_id d with
  | Some m => String.eqb m n
  | None => false
  end.

Definition rule_container (rec : ThriftType -> string) (t : ThriftType)
  : option string :=
  match t with
  | ListType e | SetType e => Some (rec e ++ "[]")
  | _ => None
  end.

Definition rule_enum (t : ThriftType) : option string :=
  match t with
  | Identifier n =>
      if existsb (is_enum_named n) defs
      then Some ("$Keys<typeof " ++ transformName n ++ ">")
      else None
  | _ => None
  end.

Definition rule_map (rec : ThriftType -> string) (t : ThriftType)
  : option string :=
  match t with
  | MapType k v => Some ("{[" ++ rec k ++ "]: " ++ rec v ++ "}")
  | _ => None
  end.

Definition rule_annotated_i64 (t : ThriftType) : option string :=
  match t with
  | BaseType i64 (Some annotations) =>
      match TypeConverter.assoc "js.type" annotations with
      | Some a =>
          if String.eqb a "Long" || String.eqb a "Date" then Some a else None
      | None => None
      end
  | _ => None
  end.

Definition rule_primitive (t : ThriftType) : option string :=
  match t with
  | BaseType bool_ _ => Some "boolean"
  | BaseType (byte | i8 | i16 | i32 | double) _ => Some "number"
  | BaseType string_ _ => Some "string"
  | BaseType binary _ => Some "Buffer"
  | BaseType i64 _ => Some "Buffer"
  | BaseType void _ => Some "void"
  | _ => None
  end.

Definition rule_fallback (t : ThriftType) : string :=
  transformName (ToString (type_name t)).

(** The first rule that applies wins. *)
Fixpoint first_match (rules : list (option string)) (otherwise : string)
  : string :=
  match rules with
  | [] => otherwise
  | Some s :: _ => s
  | None :: rules' => first_match rules' otherwise
  end.

Fixpoint convert (t : ThriftType) : string :=
  first_match
    [ rule_container convert t;
      rule_enum t;
      rule_map convert t;
      rule_annotated_i64 t;
      rule_primitive t ]
    (rule_fallback t).

End TypeMapper.

(** The [js.type] of an i64 is ordinary when it does not name a member that
    every object inherits. *)
Definition own_or_absent (jsType : string) : bool :=
  match TypeConverter.assoc jsType TypeConverter.Object_prototype with
  | Some _ => false
  | None => true
  end.

Fixpoint ordinary (t : ThriftType) : bool :=
  match t with
  | BaseType i64 (Some annotations) =>
      match TypeConverter.assoc "js.type" annotations with
      | Some jsType => own_or_absent jsType
      | None => true
      end
  | BaseType _ _ | Identifier _ => true
  | ListType e | SetType e => ordinary e
  | MapType k v => ordinary k && ordinary v
  end.

(** Every definition of the list has a name, and no two share one. *)
Definition well_formed (defs : list Defn) : Prop :=
  Forall (fun d => def_id d <> None) defs /\ NoDup (map def_id defs).

(** [pat] occurs in [s]. *)
Definition occurs (pat s : string) : Prop :=
  exists pre post, s = pre ++ pat ++ post.

(** [export type id = body;] *)
Definition export_type (id body : string) : string :=
  "export type " ++ id ++ " = " ++ body ++ ";".

Section Declarations.

(** The type mapper's result for a type slot. *)
Variable ty : ThriftType -> string.

(** A field of a field list: name, [?] when optional, [:], type, [;]. *)
Definition field_entry (f : Field) : string :=
  f_name f ++ (if f_optional f then "?" else "") ++ ": "
  ++ ty (f_valueType f) ++ ";".

(** The exact object type of a field list, one entry per line. *)
Definition field_list (fields : list Field) : string :=
  "{|" ++ join nl (map field_entry fields) ++ "|}".

(** The alternative of a union for one field. *)
Definition union_alternative (f : Field) : string :=
  "{|" ++ f_name f ++ ": " ++ ty (f_valueType f) ++ "|}".

Definition union_body (fields : list Field) : string :=
  match fields with
  | [] => "{||}"
  | _ => join " | " (map union_alternative fields)
  end.

End Declarations.

(** The literal of an enum member: its value, else its position. *)
Definition enum_value_literal (position : nat) (d : EnumDefinition) : string :=
  match ed_value d with
  | Some v => string_of_Z v
  | None => string_of_nat position
  end.

Definition enum_value_union (members : list EnumDefinition) : string :=
  join " | "
    (map (fun pd => enum_value_literal (fst pd) (snd pd))
       (combine (seq 0 (length members)) members)).

Definition enum_key_union (members : list EnumDefinition) : string :=
  join " | " (map (fun d => dquote ++ ed_name d ++ dquote) members).

(** The kinds that [convertDefinitionToCode] renders. *)
Definition supported_kinds : list string :=
  ["Struct"; "Exception"; "Union"; "Enum"; "Typedef"; "Service"; "Const"].

(** *** Files of the resolved file set *)

(** A component of a resolved path: not empty, no slash, neither [.] nor
    [..]. *)
Definition clean (s : string) : bool :=
  nonempty s && negb (Path.has_slash s)
  && negb (String.eqb s ".") && negb (String.eqb s "..").

(** The absolute path with the given components. *)
Definition abs_path (segs : list string) : string := "/" ++ join "/" segs.

(** A file: the components of its directory, and its name. *)
Definition file : Type := (list string * string)%type.

Definition file_path (f : file) : string := abs_path (fst f ++ [snd f]).

Fixpoint is_prefix (p l : list string) : bool :=
  match p, l with
  | [], _ => true
  | x :: p', y :: l' => String.eqb x y && is_prefix p' l'
  | _ :: _, [] => false
  end.

(** The name of a file without the IDL extension. *)
Definition strip_extension (name : string) : string :=
  match Path.strip_suffix ".thrift" name with
  | Some stem => stem
  | None => name
  end.

Definition dotdots (k : nat) : list string := repeat ".." k.

(** A component of a relative path: not empty, no slash. *)
Definition plain (s : string) : bool :=
  nonempty s && negb (Path.has_slash s).

(** The directory of a file relative to the directory of the entry file:
    one [..] for each component of the entry directory below the common
    ancestor, then the way down. *)
Definition relative_dir (entry_dir file_dir : list string) : list string :=
  let (up, down) := Path.strip_common entry_dir file_dir in
  (dotdots (length up) ++ down)%list.

(** The module path: relative to the directory of the entry file, without
    the extension, and with [./] in front when it has no directory part. *)
Definition module_path (entry_dir : list string) (f : file) : string :=
  match relative_dir entry_dir (fst f) with
  | [] => "./" ++ strip_extension (snd f)
  | dir => join "/" (dir ++ [strip_extension (snd f)])
  end.

(** The namespace import of a file, bound to its base name. *)
Definition import_statement (entry_dir : list string) (f : file) : string :=
  "import * as " ++ strip_extension (snd f) ++ " from '"
  ++ module_path entry_dir f ++ ".js';".

(** A file of the file set: clean components, a name that is more than the
    extension, and a path that is not a directory above the entry file. *)
Definition file_ok (entry_dir : list string) (f : file) : bool :=
  forallb clean (fst f) && clean (snd f) && clean (strip_extension (snd f))
  && negb (is_prefix (fst f ++ [snd f]) entry_dir).

(** *** Documents *)

(** The same converter over another list of top-level definitions. *)
Definition with_definitions (this : ThriftFileConverter.t) (defs : list Defn)
  : ThriftFileConverter.t :=
  ThriftFileConverter.mk
    (ThriftFileConverter.thriftPath this)
    (ThriftFileConverter.mkThrift defs
       (ThriftFileConverter.idls (ThriftFileConverter.thrift this)))
    (ThriftFileConverter.types this)
    (ThriftFileConverter.transformName this)
    (ThriftFileConverter.enumvalues this)
    (ThriftFileConverter.withsource this).

(** The warning for a definition that is not rendered. *)
Definition skip_warning (this : ThriftFileConverter.t) (d : Defn) : string :=
  Path.basename (ThriftFileConverter.thriftPath this) ++ ": Skipping "
  ++ def_type d ++ " "
  ++ match def_id d with
     | Some name => name
     | None => "?"
     end.

End Spec.

(* ================================================================= *)
(** ** Sample inputs *)

Module Examples.

Import ThriftFileConverter.

(** The default name transform. *)
Definition same_name (n : string) : string := n.

Definition color : Defn :=
  Enum "Color"
    [ mkEnumDefinition "RED" None; mkEnumDefinition "GREEN" None;
      mkEnumDefinition "BLUE" None ].

Definition empty_struct : Defn := Struct "Empty" [].

Definition namespace : Defn := Other "Namespace" None.

Definition sample_defs : list Defn := [empty_struct; color].

(** The entry file [/w/a/e.thrift], a sibling, a file below and a file in
    another directory. *)
Definition sample_files : list Spec.file :=
  [ (["w"; "a"], "e.thrift");
    (["w"; "a"], "shared.thrift");
    (["w"; "a"; "sub"], "t.thrift");
    (["w"; "b"], "u.thrift") ].

Definition sample : t :=
  new "/w" "/w/a/e.thrift"
    (mkThrift sample_defs (map Spec.file_path sample_files))
    same_name false false.

(** [void ping(1: optional string a, 2: i32 b)]. *)
Definition ping : FunctionDefinition :=
  mkFunction "ping"
    [ mkField "a" (BaseType string_ None) true;
      mkField "b" (BaseType i32 None) false ]
    (BaseType void None).

End Examples.

(* ================================================================= *)
(** ** Descriptions used by the further properties *)

Module Cover.

Import ThriftFileConverter.

(** The reference under the list and set constructors of a type. *)
Fixpoint element (t : ThriftType) : ThriftType :=
  match t with
  | ListType e | SetType e => element e
  | _ => t
  end.

(** No named reference anywhere in the type. *)
Fixpoint nameless (t : ThriftType) : bool :=
  match t with
  | BaseType _ _ => true
  | Identifier _ => false
  | ListType e | SetType e => nameless e
  | MapType k v => nameless k && nameless v
  end.

Definition has_id (d : Defn) : bool :=
  match def_id d with
  | Some _ => true
  | None => false
  end.

(** [d] has an [id], and its name is not the name [v]. *)
Definition unmatched (v : jsval) (d : Defn) : bool :=
  match def_id d with
  | Some m =>
      match v with
      | JStr n => negb (String.eqb m n)
      | _ => true
      end
  | None => false
  end.

Definition named (n : string) (d : Defn) : bool :=
  match def_id d with
  | Some m => String.eqb m n
  | None => false
  end.

Section FirstDefinition.

Variable transformName : string -> string.
Variable defs : list Defn.

(** The first definition called [n] is an enum. *)
Definition resolves_to_enum (n : string) : bool :=
  match List.find (named n) defs with
  | Some d => instanceof_Enum d
  | None => false
  end.

(** The result of [convert] when every definition has a name; names may
    repeat. A base type gives what its annotation gives when that is truthy,
    and its table entry otherwise. *)
Fixpoint convert (t : ThriftType) : jsval :=
  match t with
  | ListType e | SetType e => JStr (ToString (convert e) ++ "[]")
  | Identifier n =>
      JStr (if resolves_to_enum n
            then "$Keys<typeof " ++ transformName n ++ ">"
            else transformName n)
  | MapType k v =>
      JStr ("{[" ++ ToString (convert k) ++ "]: " ++ ToString (convert v)
            ++ "}")
  | BaseType b annotations =>
      if truthy (TypeConverter.annotation (BaseType b annotations))
      then TypeConverter.annotation (BaseType b annotations)
      else JStr (TypeConverter.primitives b)
  end.

End FirstDefinition.

(** A definition that asks for no type conversion. *)
Definition type_free (d : Defn) : bool :=
  match d with
  | Struct _ [] | Exception _ [] | Union _ [] => true
  | Enum _ _ => true
  | Service _ [] => true
  | Other _ _ => true
  | _ => false
  end.

Definition is_other (d : Defn) : bool :=
  match d with
  | Other _ _ => true
  | _ => false
  end.

(** What [convertDefinitionToCode] returns for a definition without type
    slots. *)
Definition block (this : t) (d : Defn) : jsval :=
  match d with
  | Struct name _ | Exception name _ | Union name _ =>
      JStr (Spec.export_type (transformName this name) "{||}")
  | Enum name members => JStr (generateEnum this name members)
  | Service name _ =>
      JStr (Spec.export_type (transformName this name) ("{" ++ nl ++ "}"))
  | _ => JNull
  end.

(** The warnings that a list of definitions prints. *)
Definition warnings (this : t) (defs : list Defn) : list string :=
  map (Spec.skip_warning this) (filter is_other defs).

(** The timestamp line, with the source line when [withsource] is set. *)
Definition timestamp_line (now : string) (this : t) : string :=
  "// Generated by thrift2flow at " ++ now
  ++ (if withsource this then nl ++ "// Source: " ++ thriftPath this else "").

(** The first two blocks of every document. *)
Definition header (now : string) (this : t) : string :=
  "// @flow" ++ nl ++ nl ++ timestamp_line now this.

(** Sample inputs of the further properties. *)
Definition string_lists : ThriftType :=
  MapType (BaseType string_ None) (ListType (BaseType i32 None)).

Definition suffixed (n : string) : string := n ++ "T".

Definition small_file : list Defn :=
  [Examples.color; Examples.namespace; Examples.empty_struct].

Definition alias : Defn := Typedef "Id" (BaseType i64 (Some [("js.type", "Long")])).

Definition entry_only : t :=
  new "/w" "/w/a/e.thrift" (mkThrift small_file ["/w/a/e.thrift"])
    Examples.same_name false true.

Definition one_below : t :=
  new "/w" "/w/a/e.thrift" (mkThrift [] ["/w/a/sub/deep/t.thrift"])
    Examples.same_name false false.

Definition one_outside : t :=
  new "/w" "/w/a/deep/e.thrift" (mkThrift [] ["/w/b/u.thrift"])
    Examples.same_name false false.

End Cover.

(* ================================================================= *)
(** ** Strings *)

Section StringFacts.

Lemma str_app_assoc (a b c : string) : (a ++ b) ++ c = a ++ (b ++ c).
Proof. induction a as [| x a IH]; simpl; [reflexivity | now rewrite IH]. Qed.

Lemma nonempty_app_r (s t : string) :
  nonempty t = true -> nonempty (s ++ t) = true.
Proof. now destruct s. Qed.

End StringFacts.

(* ================================================================= *)
(** ** Properties of the type converter *)

Section TypeConverterFacts.

Lemma find_no_name (defs : list Defn) :
  Forall (fun d => def_id d <> None) defs ->
  TypeConverter.find (TypeConverter.name_matches JUndefined) defs = OK None.
Proof.
  induction 1 as [| d l Hd _ IH]; simpl; [reflexivity |].
  unfold TypeConverter.name_matches.
  destruct (def_id d); [simpl; exact IH | congruence].
Qed.

Lemma existsb_absent (n : string) (l : list Defn) :
  ~ In (Some n) (map def_id l) ->
  existsb (Spec.is_enum_named n) l = false.
Proof.
  induction l as [| d l IH]; simpl; intros H; [reflexivity |].
  rewrite IH by tauto.
  unfold Spec.is_enum_named.
  destruct (def_id d) as [m |] eqn:E; [| now rewrite andb_false_r].
  destruct (String.eqb_spec m n) as [-> | _]; [tauto | now rewrite andb_false_r].
Qed.

(** With unique names, the definition that [find] returns decides whether the
    list holds an enum of that name. *)
Lemma find_named (n : string) (defs : list Defn) :
  Spec.well_formed defs ->
  exists r,
    TypeConverter.find (TypeConverter.name_matches (JStr n)) defs = OK r /\
    match r with
    | Some d => instanceof_Enum d
    | None => false
    end = existsb (Spec.is_enum_named n) defs.
Proof.
  intros [Hid Hnd]. induction Hid as [| d l Hd Hl IH]; simpl.
  - exists None. split; reflexivity.
  - inversion Hnd as [| x xs Hnotin Hnd']; subst.
    unfold TypeConverter.name_matches at 1, Spec.is_enum_named at 1.
    destruct (def_id d) as [m |] eqn:E; [| congruence]. simpl.
    destruct (String.eqb_spec m n) as [-> | Hne].
    + exists (Some d). split; [reflexivity |].
      rewrite (existsb_absent n l Hnotin), andb_true_r, orb_false_r.
      reflexivity.
    + rewrite andb_false_r. simpl. exact (IH Hnd').
Qed.

Lemma primitives_table (b : primitive) (a : option (list (string * string))) :
  Spec.rule_primitive (BaseType b a) = Some (TypeConverter.primitives b).
Proof. destruct b; reflexivity. Qed.

(** The annotation rule: for an ordinary [js.type] a truthy result is one of
    the two aliases. *)
Lemma annotation_rule (t : ThriftType) :
  Spec.ordinary t = true ->
  match Spec.rule_annotated_i64 t with
  | Some s => TypeConverter.annotation t = JStr s /\ nonempty s = true
  | None => truthy (TypeConverter.annotation t) = false
  end.
Proof.
  destruct t as [b a | n | e | e | k v]; try reflexivity.
  destruct b; try reflexivity.
  destruct a as [o |]; [| reflexivity]. cbn [Spec.ordinary].
  cbn [Spec.rule_annotated_i64 TypeConverter.annotation].
  unfold TypeConverter.jsType_of.
  destruct (TypeConverter.assoc "js.type" o) as [s |]; [| reflexivity].
  unfold TypeConverter.i64Mappings, Spec.own_or_absent.
  destruct (String.eqb_spec s "Long") as [-> | _]; [split; reflexivity |].
  destruct (String.eqb_spec s "Date") as [-> | _]; [split; reflexivity |].
  cbn [orb].
  destruct (TypeConverter.assoc s TypeConverter.Object_prototype);
    [discriminate |].
  intros _. now destruct (nonempty s).
Qed.

Lemma or_else_truthy (v : jsval) (b : exc jsval) :
  truthy v = true -> (OK v ||| b) = OK v.
Proof. intros H. unfold or_else. simpl. now rewrite H. Qed.

Lemma or_else_falsy (v : jsval) (b : exc jsval) :
  truthy v = false -> (OK v ||| b) = b.
Proof. intros H. unfold or_else. simpl. now rewrite H. Qed.

Section WithTransform.

Variable transformName : string -> string.

(** Without a definition list every conversion raises: a list or set raises
    in its element, anything else in [isEnum]. *)
Lemma convert_undefined_raises (t : ThriftType) :
  TypeConverter.convert transformName t None = Throw TypeError.
Proof.
  induction t as [b a | n | e IH | e IH | k IHk v IHv]; simpl.
  - reflexivity.
  - reflexivity.
  - rewrite IH. reflexivity.
  - rewrite IH. reflexivity.
  - reflexivity.
Qed.

Lemma isEnum_defined (t : ThriftType) (defs : list Defn) :
  Spec.well_formed defs ->
  exists v,
    TypeConverter.isEnum t (Some defs) = OK v /\
    truthy v = match Spec.rule_enum transformName defs t with
               | Some _ => true
               | None => false
               end.
Proof.
  intros Hwf. unfold TypeConverter.isEnum.
  destruct t as [b a | n | e | e | k v]; simpl;
    try (rewrite (find_no_name defs (proj1 Hwf)); simpl;
         exists JUndefined; split; reflexivity).
  destruct (find_named n defs Hwf) as [r [-> Hr]]. simpl.
  rewrite <- Hr.
  destruct r as [d |]; eexists; split; try reflexivity.
  simpl. now destruct (instanceof_Enum d).
Qed.

Lemma convert_unfold (t : ThriftType) (ad : option (list Defn)) :
  TypeConverter.convert transformName t ad
  = (TypeConverter.arrayType (TypeConverter.convert transformName) t ad |||
     TypeConverter.enumType transformName t ad |||
     TypeConverter.mapType (TypeConverter.convert transformName) t ad |||
     OK (TypeConverter.annotation t) |||
     OK (TypeConverter.primitives_lookup t) |||
     OK (JStr (TypeConverter.apply_transformName transformName (type_name t)))).
Proof. destruct t; reflexivity. Qed.

Lemma enumType_defined (t : ThriftType) (defs : list Defn) :
  Spec.well_formed defs ->
  exists v,
    TypeConverter.enumType transformName t (Some defs) = OK v /\
    match Spec.rule_enum transformName defs t with
    | Some s => v = JStr s /\ truthy v = true
    | None => truthy v = false
    end.
Proof.
  intros Hwf. unfold TypeConverter.enumType, and_then.
  destruct (isEnum_defined t defs Hwf) as [w [-> Hw]]. simpl bind.
  destruct (Spec.rule_enum transformName defs t) as [s |] eqn:E; rewrite Hw.
  - eexists. split; [reflexivity |].
    destruct t as [b a | n | e | e | k v]; try discriminate.
    simpl in E. destruct (existsb _ defs); [| discriminate].
    injection E as <-. split; reflexivity.
  - exists w. split; [reflexivity | exact Hw].
Qed.

(** With a well-formed definition list and ordinary annotations, [convert]
    returns the string that the ordered rules of the specification give. *)
Lemma convert_defined (defs : list Defn) (t : ThriftType) :
  Spec.well_formed defs -> Spec.ordinary t = true ->
  TypeConverter.convert transformName t (Some defs)
  = OK (JStr (Spec.convert transformName defs t)).
Proof.
  intros Hwf.
  induction t as [b a | n | e IH | e IH | k IHk v IHv]; intros Hord;
    rewrite convert_unfold;
    cbn [TypeConverter.arrayType TypeConverter.mapType].
  - rewrite (or_else_falsy (JBool false)) by reflexivity.
    destruct (enumType_defined (BaseType b a) defs Hwf) as [w [-> Hw]].
    simpl in Hw. rewrite (or_else_falsy w) by exact Hw.
    rewrite (or_else_falsy JNull) by reflexivity.
    pose proof (annotation_rule (BaseType b a) Hord) as Ha.
    cbn [Spec.convert Spec.first_match Spec.rule_container Spec.rule_enum
         Spec.rule_map].
    destruct (Spec.rule_annotated_i64 (BaseType b a)) as [s |].
    + destruct Ha as [Ha Hs]. rewrite Ha.
      repeat rewrite (or_else_truthy (JStr s)) by exact Hs.
      reflexivity.
    + rewrite (or_else_falsy _ _ Ha).
      rewrite primitives_table. cbn [TypeConverter.primitives_lookup].
      rewrite or_else_truthy by (destruct b; reflexivity).
      reflexivity.
  - rewrite (or_else_falsy (JBool false)) by reflexivity.
    destruct (enumType_defined (Identifier n) defs Hwf) as [w [-> Hw]].
    cbn [Spec.convert Spec.first_match Spec.rule_container].
    destruct (Spec.rule_enum transformName defs (Identifier n)) as [s |].
    + destruct Hw as [-> Hs].
      repeat rewrite (or_else_truthy (JStr s)) by exact Hs.
      reflexivity.
    + rewrite (or_else_falsy w) by exact Hw.
      rewrite (or_else_falsy JNull) by reflexivity.
      rewrite (or_else_falsy (JStr "")) by reflexivity.
      rewrite (or_else_falsy JUndefined) by reflexivity.
      reflexivity.
  - cbn [Spec.ordinary] in Hord. rewrite (IH Hord). cbn [bind ToString].
    repeat rewrite or_else_truthy by (apply nonempty_app_r; reflexivity).
    reflexivity.
  - cbn [Spec.ordinary] in Hord. rewrite (IH Hord). cbn [bind ToString].
    repeat rewrite or_else_truthy by (apply nonempty_app_r; reflexivity).
    reflexivity.
  - rewrite (or_else_falsy (JBool false)) by reflexivity.
    destruct (enumType_defined (MapType k v) defs Hwf) as [w [-> Hw]].
    simpl in Hw. rewrite (or_else_falsy w) by exact Hw.
    cbn [Spec.ordinary] in Hord. apply andb_prop in Hord as [Hk Hv].
    rewrite (IHk Hk), (IHv Hv). cbn [bind ToString].
    repeat rewrite or_else_truthy by reflexivity.
    reflexivity.
Qed.

End WithTransform.

End TypeConverterFacts.

(* ================================================================= *)
(** ** Properties of the declaration generator *)

Section GeneratorFacts.

Import ThriftFileConverter.

Lemma mapM_pure {A B : Type} (f : A -> exc B) (g : A -> B) (l : list A) :
  (forall a, f a = OK (g a)) -> mapM f l = OK (map g l).
Proof.
  intros H. induction l as [| a l IH]; simpl; [reflexivity |].
  now rewrite H, IH.
Qed.

Lemma mapM_raises {A B : Type} (f : A -> exc B) (e : error) (a : A)
  (l : list A) :
  f a = Throw e -> mapM f (a :: l) = Throw e.
Proof. intros H. simpl. now rewrite H. Qed.

(** *** With a converter object whose one-argument call returns strings *)

Section PureConverter.

Variable this : t.
Variable ty : ThriftType -> string.
Hypothesis convert_returns :
  forall ty_ref, TypeConverter.convert_ (types this) ty_ref None
                 = OK (JStr (ty ty_ref)).

Lemma generateStructContents_rendering (fields : list Field) :
  generateStructContents this fields = OK (Spec.field_list ty fields).
Proof.
  unfold generateStructContents, Spec.field_list.
  rewrite (mapM_pure _ (Spec.field_entry ty)); [reflexivity |].
  intros f. now rewrite convert_returns.
Qed.

Lemma generateStruct_rendering (name : string) (fields : list Field) :
  generateStruct this name fields
  = OK (Spec.export_type (transformName this name) (Spec.field_list ty fields)).
Proof.
  unfold generateStruct. now rewrite generateStructContents_rendering.
Qed.

Lemma generateUnionContents_rendering (fields : list Field) :
  generateUnionContents this fields = OK (Spec.union_body ty fields).
Proof.
  unfold generateUnionContents, Spec.union_body.
  destruct fields as [| f fields]; [reflexivity |].
  cbn [length].
  rewrite (mapM_pure _ (Spec.union_alternative ty)); [reflexivity |].
  intros f'. now rewrite convert_returns.
Qed.

Lemma generateUnion_rendering (name : string) (fields : list Field) :
  generateUnion this name fields
  = OK (Spec.export_type (transformName this name) (Spec.union_body ty fields)).
Proof.
  unfold generateUnion. now rewrite generateUnionContents_rendering.
Qed.

Lemma generateConst_rendering (name : string) (fieldType : ThriftType)
  (literal : Literal) :
  generateConst this name fieldType literal
  = OK ("export const " ++ transformName this name ++ ": " ++ ty fieldType
        ++ " = "
        ++ match literal with
           | LString s => "'" ++ s ++ "'"
           | LNumber text => text
           | LNoValue => "undefined"
           end
        ++ ";").
Proof.
  unfold generateConst. rewrite convert_returns. now destruct literal.
Qed.

End PureConverter.

(** *** With the converter that the constructor builds *)

Section Constructed.

Variable cwd : string.
Variable path : string.
Variable parsed : Thrift.
Variable tn : string -> string.
Variables ev ws : bool.

Let this : t := new cwd path parsed tn ev ws.

Lemma types_convert_raises (ty_ref : ThriftType) :
  TypeConverter.convert_ (types this) ty_ref None = Throw TypeError.
Proof. apply convert_undefined_raises. Qed.

Lemma generateStructContents_raises (f : Field) (fields : list Field) :
  generateStructContents this (f :: fields) = Throw TypeError.
Proof.
  unfold generateStructContents.
  rewrite (mapM_raises _ TypeError); [reflexivity |].
  now rewrite types_convert_raises.
Qed.

Lemma generateUnionContents_raises (f : Field) (fields : list Field) :
  generateUnionContents this (f :: fields) = Throw TypeError.
Proof.
  unfold generateUnionContents. cbn [length].
  rewrite (mapM_raises _ TypeError); [reflexivity |].
  now rewrite types_convert_raises.
Qed.

Lemma generateFunction_raises (fn : FunctionDefinition) :
  generateFunction this fn = Throw TypeError.
Proof.
  unfold generateFunction. rewrite types_convert_raises.
  destruct (fn_fields fn) as [| f fields]; [reflexivity |].
  cbn [length]. now rewrite generateStructContents_raises.
Qed.

End Constructed.

(** [map_indexed] numbers the members from its start index. *)
Lemma map_indexed_combine {A B : Type} (f : A -> nat -> B) (l : list A) :
  forall start,
    map_indexed f start l
    = map (fun pd => f (snd pd) (fst pd)) (combine (seq start (length l)) l).
Proof.
  induction l as [| a l IH]; intros start; simpl; [reflexivity |].
  now rewrite IH.
Qed.

End GeneratorFacts.

(* ================================================================= *)
(** ** Properties of the path functions *)

Section PathFacts.

Import Path Spec.

Lemma clean_nonempty (s : string) : clean s = true -> nonempty s = true.
Proof. unfold clean. intros H. now repeat (apply andb_prop in H as [H _]). Qed.

Lemma clean_noslash (s : string) : clean s = true -> has_slash s = false.
Proof.
  unfold clean. intros H. apply andb_prop in H as [H _].
  apply andb_prop in H as [H _]. apply andb_prop in H as [_ H].
  now destruct (has_slash s).
Qed.

Lemma clean_not_dot (s : string) :
  clean s = true -> String.eqb s "" || String.eqb s "." = false.
Proof.
  unfold clean. intros H. apply andb_prop in H as [H _].
  apply andb_prop in H as [H Hdot]. apply andb_prop in H as [Hne _].
  destruct s; [discriminate |].
  apply negb_true_iff in Hdot. now rewrite Hdot.
Qed.

Lemma clean_not_dotdot (s : string) :
  clean s = true -> String.eqb s ".." = false.
Proof.
  unfold clean. intros H. apply andb_prop in H as [_ H].
  now destruct (String.eqb s "..").
Qed.

Lemma forallb_clean_noslash (l : list string) :
  forallb clean l = true -> forallb (fun s => negb (has_slash s)) l = true.
Proof.
  induction l as [| s l IH]; simpl; [reflexivity |].
  intros H. apply andb_prop in H as [Hs Hl].
  now rewrite (clean_noslash s Hs), IH.
Qed.

Lemma split_noslash (s : string) : has_slash s = false -> split s = [s].
Proof.
  induction s as [| a s IH]; simpl; [reflexivity |].
  intros H. apply orb_false_elim in H as [Ha Hs].
  now rewrite Ha, (IH Hs).
Qed.

Lemma split_app_slash (a b : string) :
  has_slash a = false -> split (a ++ "/" ++ b) = a :: split b.
Proof.
  induction a as [| x a IH]; intros H; [reflexivity |].
  simpl in H. apply orb_false_elim in H as [Hx Ha].
  change (String x a ++ "/" ++ b) with (String x (a ++ "/" ++ b)).
  cbn [split]. now rewrite Hx, (IH Ha).
Qed.

Lemma join_cons (sep x y : string) (l : list string) :
  join sep (x :: y :: l) = x ++ sep ++ join sep (y :: l).
Proof. reflexivity. Qed.

Lemma split_join (segs : list string) :
  segs <> [] ->
  forallb (fun s => negb (has_slash s)) segs = true ->
  split (join "/" segs) = segs.
Proof.
  induction segs as [| x segs IH]; [congruence |].
  intros _ H. simpl in H. apply andb_prop in H as [Hx Hl].
  apply negb_true_iff in Hx.
  destruct segs as [| y segs].
  - now apply split_noslash.
  - rewrite join_cons, (split_app_slash _ _ Hx), IH; [reflexivity | | exact Hl].
    discriminate.
Qed.

Lemma split_abs_path (segs : list string) :
  segs <> [] ->
  forallb (fun s => negb (has_slash s)) segs = true ->
  split (abs_path segs) = "" :: segs.
Proof.
  intros Hne H. unfold abs_path.
  change ("/" ++ join "/" segs) with ("" ++ "/" ++ join "/" segs).
  rewrite split_app_slash by reflexivity. now rewrite split_join.
Qed.

Lemma filter_nonempty_clean (segs : list string) :
  forallb clean segs = true -> filter nonempty segs = segs.
Proof.
  induction segs as [| s segs IH]; simpl; [reflexivity |].
  intros H. apply andb_prop in H as [Hs Hl].
  now rewrite (clean_nonempty s Hs), IH.
Qed.

Lemma components_abs_path (segs : list string) :
  segs <> [] -> forallb clean segs = true ->
  components (abs_path segs) = segs.
Proof.
  intros Hne H. unfold components.
  rewrite split_abs_path by auto using forallb_clean_noslash.
  simpl. now apply filter_nonempty_clean.
Qed.

(** Clean components pass [normalizeString] unchanged. *)
Lemma normalizeString_clean (allow : bool) (segs : list string) :
  forallb clean segs = true ->
  forall acc, normalizeString allow segs acc = (rev acc ++ segs)%list.
Proof.
  induction segs as [| s segs IH]; simpl; intros H acc.
  - now rewrite app_nil_r.
  - apply andb_prop in H as [Hs Hl].
    rewrite (clean_not_dot s Hs), (clean_not_dotdot s Hs), (IH Hl).
    simpl. now rewrite <- app_assoc.
Qed.

(** Leading [..] components of a relative path are kept. *)
Lemma normalizeString_dotdots (k : nat) (segs : list string) :
  forallb clean segs = true ->
  forall j,
    normalizeString true (dotdots k ++ segs) (dotdots j)
    = (dotdots (j + k) ++ segs)%list.
Proof.
  intros H. induction k as [| k IH]; intros j.
  - simpl. rewrite (normalizeString_clean true segs H).
    unfold dotdots. rewrite Nat.add_0_r.
    f_equal. induction j as [| j IHj]; [reflexivity |].
    simpl. rewrite IHj. clear. induction j; simpl; [reflexivity | now f_equal].
  - cbn [dotdots repeat app normalizeString]. simpl String.eqb.
    destruct j as [| j].
    + cbn [dotdots repeat orb]. fold (dotdots k). change [".."] with (dotdots 1).
      rewrite IH. reflexivity.
    + cbn [dotdots repeat]. simpl String.eqb. cbn [orb]. fold (dotdots k).
      change (".." :: ".." :: repeat ".." j) with (dotdots (S (S j))).
      rewrite IH. now replace (S (S j) + k) with (S j + S k) by lia.
Qed.

Lemma clean_plain (s : string) : clean s = true -> plain s = true.
Proof.
  intros H. unfold plain.
  now rewrite (clean_nonempty s H), (clean_noslash s H).
Qed.

Lemma forallb_clean_plain (l : list string) :
  forallb clean l = true -> forallb plain l = true.
Proof.
  induction l as [| s l IH]; simpl; [reflexivity |].
  intros H. apply andb_prop in H as [Hs Hl].
  now rewrite (clean_plain s Hs), IH.
Qed.

Lemma forallb_plain_dotdots (k : nat) : forallb plain (dotdots k) = true.
Proof. induction k as [| k IH]; simpl; [reflexivity | exact IH]. Qed.

Lemma forallb_plain_noslash (l : list string) :
  forallb plain l = true -> forallb (fun s => negb (has_slash s)) l = true.
Proof.
  induction l as [| s l IH]; simpl; [reflexivity |].
  intros H. apply andb_prop in H as [Hs Hl].
  unfold plain in Hs. apply andb_prop in Hs as [_ Hs].
  now rewrite Hs, IH.
Qed.

Lemma filter_nonempty_plain (l : list string) :
  forallb plain l = true -> filter nonempty l = l.
Proof.
  induction l as [| s l IH]; simpl; [reflexivity |].
  intros H. apply andb_prop in H as [Hs Hl].
  unfold plain in Hs. apply andb_prop in Hs as [Hs _].
  now rewrite Hs, IH.
Qed.

Lemma resolve_abs_path (cwd : string) (segs : list string) :
  segs <> [] -> forallb clean segs = true ->
  resolve cwd (abs_path segs) = abs_path segs.
Proof.
  intros Hne H. unfold resolve.
  change (isAbsolute (abs_path segs)) with true. cbv iota.
  rewrite split_abs_path by auto using forallb_clean_noslash.
  cbn [normalizeString]. simpl String.eqb. cbn [orb].
  now rewrite normalizeString_clean.
Qed.

Lemma dirname_file_path (dir : list string) (e : string) :
  forallb clean (dir ++ [e]) = true ->
  dirname (abs_path (dir ++ [e]))
  = match dir with
    | [] => "/"
    | _ => abs_path dir
    end.
Proof.
  intros H. unfold dirname.
  rewrite split_abs_path; [| now destruct dir | now apply forallb_clean_noslash].
  change ("" :: dir ++ [e])%list with (("" :: dir) ++ [e])%list.
  rewrite removelast_last. now destruct dir.
Qed.

Lemma components_dirname (dir : list string) (e : string) :
  forallb clean (dir ++ [e]) = true ->
  components (dirname (abs_path (dir ++ [e]))) = dir.
Proof.
  intros H. rewrite dirname_file_path by exact H.
  rewrite forallb_app in H. apply andb_prop in H as [Hd _].
  destruct dir as [| d dir]; [reflexivity |].
  now apply components_abs_path.
Qed.

Lemma strip_common_snoc (a b : list string) (x : string) :
  is_prefix (b ++ [x]) a = false ->
  strip_common a (b ++ [x])
  = (fst (strip_common a b), (snd (strip_common a b) ++ [x])%list).
Proof.
  revert b. induction a as [| y a IH]; intros b H.
  - now destruct b.
  - destruct b as [| z b].
    + simpl in *. destruct (String.eqb_spec y x) as [-> | _]; [| reflexivity].
      rewrite String.eqb_refl in H. discriminate.
    + simpl in *. destruct (String.eqb_spec y z) as [-> | _]; [| reflexivity].
      rewrite String.eqb_refl in H. now apply IH.
Qed.

Lemma strip_common_clean (a b : list string) :
  forallb clean b = true -> forallb clean (snd (strip_common a b)) = true.
Proof.
  revert b. induction a as [| y a IH]; intros b H; [now destruct b |].
  destruct b as [| z b]; [reflexivity |]. simpl.
  destruct (String.eqb y z); [| exact H].
  simpl in H. apply andb_prop in H as [_ H]. now apply IH.
Qed.

Lemma map_dotdots {A : Type} (l : list A) :
  map (fun _ => "..") l = dotdots (length l).
Proof. induction l as [| a l IH]; simpl; [reflexivity | now rewrite IH]. Qed.

(** The relative directory is some [..] followed by clean components. *)
Lemma relative_dir_shape (entry_dir file_dir : list string) :
  forallb clean file_dir = true ->
  exists k down,
    relative_dir entry_dir file_dir = (dotdots k ++ down)%list /\
    forallb clean down = true.
Proof.
  intros H. unfold relative_dir.
  pose proof (strip_common_clean entry_dir file_dir H) as Hc.
  destruct (strip_common entry_dir file_dir) as [up down].
  now exists (length up), down.
Qed.

Lemma relative_file (entry_dir : list string) (entry_file : string) (f : file) :
  forallb clean (entry_dir ++ [entry_file]) = true ->
  file_ok entry_dir f = true ->
  relative (dirname (abs_path (entry_dir ++ [entry_file]))) (file_path f)
  = join "/" (relative_dir entry_dir (fst f) ++ [snd f]).
Proof.
  intros He Hf. unfold file_ok in Hf.
  apply andb_prop in Hf as [Hf Hpre]. apply andb_prop in Hf as [Hf _].
  apply andb_prop in Hf as [Hdir Hname].
  apply negb_true_iff in Hpre.
  unfold relative, file_path.
  rewrite (components_dirname _ _ He).
  rewrite components_abs_path;
    [| now destruct (fst f) | rewrite forallb_app; simpl; now rewrite Hdir, Hname].
  rewrite (strip_common_snoc _ _ _ Hpre). unfold relative_dir.
  destruct (strip_common entry_dir (fst f)) as [up down]. simpl.
  now rewrite map_dotdots, app_assoc.
Qed.

Lemma dirname_join (r : list string) (x : string) :
  forallb plain r = true -> has_slash x = false ->
  dirname (join "/" (r ++ [x]))
  = match r with
    | [] => "."
    | _ => join "/" r
    end.
Proof.
  intros Hr Hx. unfold dirname.
  rewrite split_join.
  - rewrite removelast_last.
    destruct r as [| a r]; [reflexivity |].
    destruct a; [discriminate |]. now destruct r.
  - now destruct r.
  - rewrite forallb_app. simpl.
    now rewrite (forallb_plain_noslash r Hr), Hx.
Qed.

Lemma join_snoc (sep : string) (r : list string) (x : string) :
  r <> [] -> join sep (r ++ [x]) = join sep r ++ sep ++ x.
Proof.
  induction r as [| a r IH]; [congruence |]. intros _.
  destruct r as [| b r]; [reflexivity |].
  change ((a :: b :: r) ++ [x])%list with (a :: (b :: r) ++ [x])%list.
  cbn [app]. rewrite !join_cons.
  change (b :: (r ++ [x])%list) with ((b :: r) ++ [x])%list.
  rewrite IH by discriminate. now rewrite !str_app_assoc.
Qed.

Lemma has_slash_app (a b : string) :
  has_slash (a ++ b) = has_slash a || has_slash b.
Proof.
  induction a as [| x a IH]; simpl; [reflexivity |].
  now rewrite IH, orb_assoc.
Qed.

Lemma has_slash_join (r : list string) (x : string) :
  has_slash x = false ->
  has_slash (join "/" (r ++ [x]))
  = match r with
    | [] => false
    | _ => true
    end.
Proof.
  intros Hx. destruct r as [| a r]; [exact Hx |].
  rewrite join_snoc by discriminate.
  rewrite !has_slash_app. simpl. now rewrite orb_true_r.
Qed.

Lemma nonempty_join (sep a : string) (l : list string) :
  nonempty a = true -> nonempty (join sep (a :: l)) = true.
Proof.
  intros H. destruct l; [exact H |].
  rewrite join_cons. now destruct a.
Qed.

Lemma isAbsolute_join (a : string) (l : list string) :
  plain a = true -> isAbsolute (join "/" (a :: l)) = false.
Proof.
  unfold plain. intros H. apply andb_prop in H as [Hne Hns].
  destruct a as [| c a]; [discriminate |].
  simpl in Hns. apply negb_true_iff, orb_false_elim in Hns as [Hc _].
  destruct l; [exact Hc |]. rewrite join_cons. exact Hc.
Qed.

Lemma ends_with_slash_noslash (b : string) :
  has_slash b = false -> ends_with_slash b = false.
Proof.
  induction b as [| x b IH]; [reflexivity |]. simpl.
  intros H. apply orb_false_elim in H as [Hx Hb].
  destruct b; [exact Hx | now apply IH].
Qed.

Lemma ends_with_slash_app (a b : string) :
  nonempty b = true -> ends_with_slash (a ++ b) = ends_with_slash b.
Proof.
  intros Hb. induction a as [| x a IH]; [reflexivity |].
  simpl. destruct (a ++ b) eqn:E; [| exact IH].
  destruct a; simpl in E; [subst b |]; discriminate.
Qed.

Lemma ends_with_slash_join (r : list string) (x : string) :
  plain x = true -> ends_with_slash (join "/" (r ++ [x])) = false.
Proof.
  unfold plain. intros H. apply andb_prop in H as [Hne Hns].
  apply negb_true_iff in Hns.
  destruct r as [| a r]; [now apply ends_with_slash_noslash |].
  rewrite join_snoc by discriminate.
  rewrite ends_with_slash_app by (now destruct x).
  rewrite ends_with_slash_app by exact Hne.
  now apply ends_with_slash_noslash.
Qed.

(** A relative path of some [..] and clean components is in normal form. *)
Lemma normalize_relative (k : nat) (down : list string) (x : string) :
  forallb clean down = true -> clean x = true ->
  normalize (join "/" ((dotdots k ++ down) ++ [x]))
  = join "/" ((dotdots k ++ down) ++ [x]).
Proof.
  intros Hd Hx.
  assert (Hplain : forallb plain ((dotdots k ++ down) ++ [x]) = true).
  { rewrite !forallb_app. simpl.
    now rewrite forallb_plain_dotdots, (forallb_clean_plain down Hd),
      (clean_plain x Hx). }
  assert (Hne : nonempty (join "/" ((dotdots k ++ down) ++ [x])) = true).
  { destruct ((dotdots k ++ down) ++ [x])%list as [| a l] eqn:E.
    - now destruct (dotdots k ++ down)%list.
    - apply nonempty_join. simpl in Hplain.
      apply andb_prop in Hplain as [Ha _]. unfold plain in Ha.
      now apply andb_prop in Ha as [Ha _]. }
  assert (Habs : isAbsolute (join "/" ((dotdots k ++ down) ++ [x])) = false).
  { destruct ((dotdots k ++ down) ++ [x])%list as [| a l] eqn:E.
    - now destruct (dotdots k ++ down)%list.
    - apply isAbsolute_join. simpl in Hplain.
      now apply andb_prop in Hplain as [Ha _]. }
  unfold normalize. rewrite Hne, Habs.
  rewrite (ends_with_slash_join _ _ (clean_plain x Hx)). cbn [negb].
  rewrite split_join;
    [| now destruct (dotdots k ++ down)%list
     | now apply forallb_plain_noslash].
  assert (Hc : forallb clean (down ++ [x]) = true).
  { rewrite forallb_app. simpl. now rewrite Hd, Hx. }
  pose proof (normalizeString_dotdots k (down ++ [x]) Hc 0) as Hn.
  change (dotdots 0) with (@nil string) in Hn. cbn [Nat.add] in Hn.
  rewrite <- app_assoc, Hn, app_assoc. now rewrite Hne.
Qed.

(** [path.join(path.dirname(rel), stem)] puts [stem] in the place of the
    file name of [rel]. *)
Lemma join2_dirname (k : nat) (down : list string) (name stem : string) :
  forallb clean down = true -> clean name = true -> clean stem = true ->
  join2 (dirname (join "/" ((dotdots k ++ down) ++ [name]))) stem
  = join "/" ((dotdots k ++ down) ++ [stem]).
Proof.
  intros Hd Hn Hs.
  assert (Hplain : forallb plain (dotdots k ++ down) = true).
  { rewrite forallb_app.
    now rewrite forallb_plain_dotdots, (forallb_clean_plain down Hd). }
  rewrite (dirname_join _ _ Hplain (clean_noslash name Hn)).
  pose proof (normalize_relative k down stem Hd Hs) as Hnorm.
  unfold join2. rewrite (clean_nonempty stem Hs).
  destruct (dotdots k ++ down)%list as [| a r] eqn:E.
  - destruct k; [| discriminate]. simpl in E. subst down.
    simpl nonempty. cbv iota.
    change ("." ++ "/" ++ stem) with ("./" ++ stem).
    unfold normalize. simpl nonempty. simpl isAbsolute. cbv iota. cbn [negb].
    change ("./" ++ stem) with ("." ++ "/" ++ stem).
    rewrite split_app_slash by reflexivity.
    rewrite (split_noslash stem (clean_noslash stem Hs)).
    cbn [normalizeString]. simpl String.eqb. cbn [orb].
    rewrite (clean_not_dot stem Hs), (clean_not_dotdot stem Hs).
    cbn [normalizeString rev app]. cbn [join String.concat].
    rewrite (clean_nonempty stem Hs). cbn [negb].
    rewrite (ends_with_slash_app "." ("/" ++ stem)) by reflexivity.
    rewrite (ends_with_slash_app "/" stem) by exact (clean_nonempty stem Hs).
    rewrite (ends_with_slash_noslash stem (clean_noslash stem Hs)).
    reflexivity.
  - simpl in Hplain. apply andb_prop in Hplain as [Ha _].
    unfold plain in Ha. apply andb_prop in Ha as [Ha _].
    rewrite (nonempty_join "/" a r Ha).
    rewrite <- join_snoc by discriminate. exact Hnorm.
Qed.

Lemma basename_join (r : list string) (x : string) :
  forallb plain r = true -> plain x = true ->
  basename (join "/" (r ++ [x])) = x.
Proof.
  intros Hr Hx. unfold basename, components.
  assert (H : forallb plain (r ++ [x]) = true).
  { rewrite forallb_app. simpl. now rewrite Hr, Hx. }
  rewrite split_join;
    [| now destruct r | now apply forallb_plain_noslash].
  rewrite (filter_nonempty_plain _ H). apply last_last.
Qed.

Lemma basename_dot_slash (x : string) :
  plain x = true -> basename ("./" ++ x) = x.
Proof.
  intros Hx. change ("./" ++ x) with (join "/" (["."] ++ [x])).
  now apply basename_join.
Qed.

Lemma basename_file_path (f : file) :
  forallb clean (fst f) = true -> clean (snd f) = true ->
  basename (file_path f) = snd f.
Proof.
  intros Hd Hn. unfold basename, file_path.
  rewrite components_abs_path;
    [apply last_last | now destruct (fst f) |].
  rewrite forallb_app. simpl. now rewrite Hd, Hn.
Qed.

Lemma basename_ext_file_path (f : file) :
  forallb clean (fst f) = true -> clean (snd f) = true ->
  nonempty (strip_extension (snd f)) = true ->
  basename_ext (file_path f) ".thrift" = strip_extension (snd f).
Proof.
  intros Hd Hn Hs. unfold basename_ext.
  change (String.eqb (file_path f) ".thrift") with false. cbv iota.
  rewrite (basename_file_path f Hd Hn).
  unfold strip_extension in *.
  destruct (strip_suffix ".thrift" (snd f)) as [r |]; [| reflexivity].
  now rewrite Hs.
Qed.

(** The import that [generateImports] emits for one file of the set. *)
Lemma import_of_file (entry_dir : list string) (entry_file : string) (f : file) :
  forallb clean (entry_dir ++ [entry_file]) = true ->
  file_ok entry_dir f = true ->
  let p := file_path f in
  let joined :=
    join2 (dirname (relative (dirname (abs_path (entry_dir ++ [entry_file])))
                      p))
      (basename_ext p ".thrift") in
  let relpath := if negb (has_slash joined) then "./" ++ joined else joined in
  "import * as " ++ basename relpath ++ " from '" ++ relpath ++ ".js';"
  = import_statement entry_dir f.
Proof.
  intros He Hf p joined relpath.
  pose proof Hf as Hok. unfold file_ok in Hok.
  apply andb_prop in Hok as [Hok _]. apply andb_prop in Hok as [Hok Hstem].
  apply andb_prop in Hok as [Hdir Hname].
  destruct (relative_dir_shape entry_dir (fst f) Hdir) as [k [down [Hr Hdown]]].
  assert (Hj : joined = join "/" (relative_dir entry_dir (fst f)
                                   ++ [strip_extension (snd f)])).
  { unfold joined, p. rewrite (relative_file _ _ _ He Hf).
    rewrite (basename_ext_file_path f Hdir Hname (clean_nonempty _ Hstem)).
    rewrite Hr. now apply join2_dirname. }
  assert (Hplain : forallb plain (relative_dir entry_dir (fst f)) = true).
  { rewrite Hr, forallb_app.
    now rewrite forallb_plain_dotdots, (forallb_clean_plain down Hdown). }
  unfold import_statement, module_path.
  unfold relpath. rewrite Hj.
  rewrite (has_slash_join _ _ (clean_noslash _ Hstem)).
  destruct (relative_dir entry_dir (fst f)) as [| a r] eqn:E.
  - cbn [negb app join String.concat].
    now rewrite (basename_dot_slash _ (clean_plain _ Hstem)).
  - cbn [negb].
    now rewrite (basename_join _ _ Hplain (clean_plain _ Hstem)).
Qed.

End PathFacts.

(* ================================================================= *)
(** ** The type mapper: rule order and failure *)

Section TypeMapperClaims.

Import ThriftFileConverter.

(** A name that no definition of a well-formed list carries falls back to
    [transformName(name)]. *)
Lemma convert_unresolved_name (tn : string -> string) (n : string)
  (defs : list Defn) :
  Spec.well_formed defs -> ~ In (Some n) (map def_id defs) ->
  TypeConverter.convert tn (Identifier n) (Some defs) = OK (JStr (tn n)).
Proof.
  intros Hwf Hn. rewrite (convert_defined tn defs (Identifier n) Hwf eq_refl).
  cbn [Spec.convert Spec.first_match Spec.rule_container Spec.rule_enum].
  now rewrite (existsb_absent n defs Hn).
Qed.

(** C1: type mapping and declaration rendering are claimed to raise no
    error. When [convert] is given a well-formed definition list, a name
    that resolves to no definition does fall back to [transformName(name)].
    The generator however calls [this.types.convert] with one argument, so
    every conversion it requests raises a TypeError in [isEnum], and the
    generation of a file whose first definition is a struct with a field
    raises with it. *)
Theorem generation_raises_on_first_type_slot (cwd now : string)
  (prettier_format : string -> exc string) (path : string)
  (tn : string -> string) (ev ws : bool) :
  (forall n defs,
      Spec.well_formed defs -> ~ In (Some n) (map def_id defs) ->
      TypeConverter.convert tn (Identifier n) (Some defs) = OK (JStr (tn n))) /\
  (forall parsed ty_ref,
      TypeConverter.convert_ (types (new cwd path parsed tn ev ws)) ty_ref None
      = Throw TypeError) /\
  (forall name f fields rest keys,
      generateFlowFile cwd now prettier_format
        (new cwd path (mkThrift (Struct name (f :: fields) :: rest) keys)
           tn ev ws)
      = (Throw TypeError, [])).
Proof.
  split; [| split].
  - intros n defs Hwf Hn. now apply convert_unresolved_name.
  - intros parsed ty_ref. apply types_convert_raises.
  - intros name f fields rest keys.
    unfold generateFlowFile. cbn [thrift definitions new io_mapM].
    unfold convertDefinitionToCode at 1. unfold generateStruct.
    now rewrite generateStructContents_raises.
Qed.

Lemma sample_defs_well_formed : Spec.well_formed Examples.sample_defs.
Proof.
  split.
  - repeat constructor; discriminate.
  - repeat constructor; simpl; intuition discriminate.
Qed.

Lemma well_formed_nil : Spec.well_formed [].
Proof. split; constructor. Qed.

(** What [convert] returns for an i64 annotated with a name that the
    mapping table inherits. *)
Lemma convert_inherited_annotation (tn : string -> string) (defs : list Defn)
  (o : list (string * string)) (jsType text : string) :
  Spec.well_formed defs ->
  TypeConverter.assoc "js.type" o = Some jsType ->
  TypeConverter.assoc jsType TypeConverter.Object_prototype = Some text ->
  TypeConverter.convert tn (BaseType i64 (Some o)) (Some defs)
  = OK (JObject text).
Proof.
  intros Hwf Ho Hp. rewrite convert_unfold.
  cbn [TypeConverter.arrayType TypeConverter.mapType].
  rewrite (or_else_falsy (JBool false)) by reflexivity.
  destruct (enumType_defined tn (BaseType i64 (Some o)) defs Hwf)
    as [w [-> Hw]].
  simpl in Hw. rewrite (or_else_falsy w) by exact Hw.
  rewrite (or_else_falsy JNull) by reflexivity.
  assert (Ha : TypeConverter.annotation (BaseType i64 (Some o)) = JObject text).
  { cbn [TypeConverter.annotation]. unfold TypeConverter.jsType_of.
    rewrite Ho. unfold TypeConverter.i64Mappings.
    destruct (String.eqb_spec jsType "Long") as [-> | _]; [discriminate |].
    destruct (String.eqb_spec jsType "Date") as [-> | _]; [discriminate |].
    rewrite Hp. destruct jsType; [discriminate | reflexivity]. }
  rewrite Ha. repeat rewrite (or_else_truthy (JObject text)) by reflexivity.
  reflexivity.
Qed.

(** C2: [convert] is claimed to apply the first matching rule of the ordered
    list for every type reference. It does so for a well-formed definition
    list whenever no i64 of the reference carries a [js.type] that names a
    member every object inherits: container, enum reference, map, annotated
    i64, primitive, and the name transform otherwise. For an i64 annotated
    with such a name (here [constructor]) the lookup in the mapping table
    finds the inherited member, and [convert] returns that function where
    rule 4 says the unrecognised annotation falls through to [Buffer]. *)
Theorem convert_applies_first_matching_rule (tn : string -> string) :
  (forall defs,
      Spec.well_formed defs ->
      TypeConverter.convert tn
        (BaseType i64 (Some [("js.type", "constructor")])) (Some defs)
      = OK (JObject "function Object() { [native code] }")
      /\ Spec.convert tn defs
           (BaseType i64 (Some [("js.type", "constructor")]))
         = "Buffer")
  /\ TypeConverter.convert tn
       (ListType (BaseType i64 (Some [("js.type", "constructor")])))
       (Some [])
     = OK (JStr "function Object() { [native code] }[]")
  /\ (forall t defs,
        Spec.well_formed defs -> Spec.ordinary t = true ->
        TypeConverter.convert tn t (Some defs)
        = OK (JStr (Spec.convert tn defs t)))
  /\ (forall t defs,
        Spec.convert tn defs t
        = match t with
          | ListType e | SetType e => Spec.convert tn defs e ++ "[]"
          | Identifier n =>
              if existsb (Spec.is_enum_named n) defs
              then "$Keys<typeof " ++ tn n ++ ">"
              else tn n
          | MapType k v =>
              "{[" ++ Spec.convert tn defs k ++ "]: "
              ++ Spec.convert tn defs v ++ "}"
          | BaseType b annotations =>
              match Spec.rule_annotated_i64 (BaseType b annotations) with
              | Some alias => alias
              | None => TypeConverter.primitives b
              end
          end)
  /\ TypeConverter.convert (fun n => n ++ "T")
       (MapType (BaseType i64 (Some [("js.type", "Date")]))
          (ListType (Identifier "Color")))
       (Some Examples.sample_defs)
     = OK (JStr "{[Date]: $Keys<typeof ColorT>[]}").
Proof.
  split; [| split; [| split; [| split]]].
  - intros defs Hwf. split; [| reflexivity].
    exact (convert_inherited_annotation tn defs
             [("js.type", "constructor")] "constructor"
             "function Object() { [native code] }" Hwf eq_refl eq_refl).
  - rewrite convert_unfold. cbn [TypeConverter.arrayType].
    rewrite (convert_inherited_annotation tn []
               [("js.type", "constructor")] "constructor"
               "function Object() { [native code] }" well_formed_nil
               eq_refl eq_refl).
    reflexivity.
  - intros t defs Hwf Hord. now apply convert_defined.
  - intros t defs.
    destruct t as [b a | n | e | e | k v]; try reflexivity.
    + cbn [Spec.convert Spec.first_match Spec.rule_container Spec.rule_enum
           Spec.rule_map].
      destruct (Spec.rule_annotated_i64 (BaseType b a)); [reflexivity |].
      now rewrite primitives_table.
    + cbn [Spec.convert Spec.first_match Spec.rule_container Spec.rule_enum].
      now destruct (existsb (Spec.is_enum_named n) defs).
  - exact (convert_defined (fun n => n ++ "T") Examples.sample_defs
             (MapType (BaseType i64 (Some [("js.type", "Date")]))
                (ListType (Identifier "Color")))
             sample_defs_well_formed eq_refl).
Qed.

End TypeMapperClaims.

(* ================================================================= *)
(** ** The declarations of structs, unions, enums, constants *)

Section DeclarationClaims.

Import ThriftFileConverter.

Variable cwd : string.
Variable path : string.
Variable parsed : Thrift.
Variable tn : string -> string.
Variables ev ws : bool.

(** C4: an enum yields two exported types, the union of the value literals
    (the member's value, else its position) and the union of the quoted
    member names; [enumvalues] decides which one takes the plain name, the
    other takes the suffix [Keys] or [Values]. The enum Color of RED, GREEN,
    BLUE renders as in the scenario. *)
Theorem generateEnum_two_unions (this : t) (name : string)
  (members : list EnumDefinition) :
  generateEnum this name members
  = (if enumvalues this
     then Spec.export_type (transformName this name)
            (Spec.enum_value_union members)
          ++ nl ++ "       "
          ++ Spec.export_type (transformName this name ++ "Keys")
               (Spec.enum_key_union members ++ ";")
     else Spec.export_type (transformName this name ++ "Values")
            (Spec.enum_value_union members)
          ++ nl ++ "      "
          ++ Spec.export_type (transformName this name)
               (Spec.enum_key_union members ++ ";"))
  /\ generateEnum (new cwd path parsed Examples.same_name false ws) "Color"
       [ mkEnumDefinition "RED" None; mkEnumDefinition "GREEN" None;
         mkEnumDefinition "BLUE" None ]
     = "export type ColorValues = 0 | 1 | 2;" ++ nl
       ++ "      export type Color = "
       ++ dquote ++ "RED" ++ dquote ++ " | "
       ++ dquote ++ "GREEN" ++ dquote ++ " | "
       ++ dquote ++ "BLUE" ++ dquote ++ ";;".
Proof.
  split; [| reflexivity].
  unfold generateEnum, generateEnumValues, generateEnumKeys,
    Spec.enum_value_union, Spec.enum_key_union, Spec.export_type,
    Spec.enum_value_literal.
  rewrite map_indexed_combine.
  destruct (enumvalues this); now rewrite !str_app_assoc.
Qed.

(** C5: a struct or exception is claimed to render as one exported alias to
    the exact object type of its fields, in order, each [name], [?] when
    optional, [: ], the converted type, [;], one per line. That is what
    [generateStruct] builds from the results of the converter; with the
    converter that the constructor builds, the rendering of any struct or
    exception that has a field raises instead. *)
Theorem generateStruct_with_field_raises (name : string) (f : Field)
  (fields : list Field) :
  convertDefinitionToCode (new cwd path parsed tn ev ws)
    (Struct name (f :: fields))
  = (Throw TypeError, [])
  /\ convertDefinitionToCode (new cwd path parsed tn ev ws)
       (Exception name (f :: fields))
     = (Throw TypeError, [])
  /\ forall (this : t) (ty : ThriftType -> string),
       (forall ty_ref,
           TypeConverter.convert_ (types this) ty_ref None
           = OK (JStr (ty ty_ref))) ->
       forall all_fields,
         generateStruct this name all_fields
         = OK (Spec.export_type (transformName this name)
                 (Spec.field_list ty all_fields)).
Proof.
  assert (H : generateStruct (new cwd path parsed tn ev ws) name (f :: fields)
              = Throw TypeError).
  { unfold generateStruct. now rewrite generateStructContents_raises. }
  split; [| split].
  - cbn [convertDefinitionToCode]. now rewrite H.
  - cbn [convertDefinitionToCode]. now rewrite H.
  - intros this ty Hty all_fields. now apply generateStruct_rendering.
Qed.

(** C6: a union without fields renders as the empty exact object type. A
    union with fields is claimed to render as one exact object type per
    field, joined by [ | ]. That is what [generateUnion] builds from the
    results of the converter; with the converter that the constructor builds
    it raises instead. *)
Theorem generateUnion_with_field_raises (name : string) :
  generateUnion (new cwd path parsed tn ev ws) name []
  = OK (Spec.export_type (tn name) "{||}")
  /\ (forall f fields,
        generateUnion (new cwd path parsed tn ev ws) name (f :: fields)
        = Throw TypeError)
  /\ forall (this : t) (ty : ThriftType -> string),
       (forall ty_ref,
           TypeConverter.convert_ (types this) ty_ref None
           = OK (JStr (ty ty_ref))) ->
       forall fields,
         generateUnion this name fields
         = OK (Spec.export_type (transformName this name)
                 (Spec.union_body ty fields)).
Proof.
  split; [reflexivity |]. split.
  - intros f fields.
    unfold generateUnion. now rewrite generateUnionContents_raises.
  - intros this ty Hty fields. now apply generateUnion_rendering.
Qed.

(** C10: a constant is claimed to be emitted with its string value between
    two single quotes, unescaped, and any other value as its text. That is
    what [generateConst] builds around the result of the converter; the
    declared type is converted with one argument, so with the converter that
    the constructor builds the rendering of every constant raises. *)
Theorem generateConst_raises (name : string) (fieldType : ThriftType)
  (literal : Literal) :
  generateConst (new cwd path parsed tn ev ws) name fieldType literal
  = Throw TypeError
  /\ forall (this : t) (ty : ThriftType -> string),
       (forall ty_ref,
           TypeConverter.convert_ (types this) ty_ref None
           = OK (JStr (ty ty_ref))) ->
       generateConst this name fieldType literal
       = OK ("export const " ++ transformName this name ++ ": " ++ ty fieldType
             ++ " = "
             ++ match literal with
                | LString s => "'" ++ s ++ "'"
                | LNumber text => text
                | LNoValue => "undefined"
                end
             ++ ";").
Proof.
  split.
  - unfold generateConst. now rewrite types_convert_raises.
  - intros this ty Hty. now apply generateConst_rendering.
Qed.

End DeclarationClaims.

(* ================================================================= *)
(** ** Services *)

Section ServiceClaims.

Import ThriftFileConverter Examples.

Variable cwd : string.
Variable path : string.
Variable parsed : Thrift.
Variable tn : string -> string.
Variables ev ws : bool.

(** C3: a service is claimed to render as one exported alias with one entry
    per function. A service without functions does render, as an alias to
    an object type in plain braces; for a service with a function,
    [generateFunction] converts the return type (and before it the parameter
    types) with one argument, so the rendering raises and no alias is
    emitted. *)
Theorem generateService_with_function_raises (name : string) :
  generateService (new cwd path parsed tn ev ws) name []
  = OK ("export type " ++ tn name ++ " = {" ++ nl ++ "};")
  /\ (forall fn, generateFunction (new cwd path parsed tn ev ws) fn
                 = Throw TypeError)
  /\ (forall fn fns,
        generateService (new cwd path parsed tn ev ws) name (fn :: fns)
        = Throw TypeError)
  /\ (forall fn fns,
        convertDefinitionToCode (new cwd path parsed tn ev ws)
          (Service name (fn :: fns))
        = (Throw TypeError, []))
  /\ convertDefinitionToCode (new cwd path parsed tn ev ws)
       (Service name [ping])
     = (Throw TypeError, []).
Proof.
  assert (H : forall fn fns,
             generateService (new cwd path parsed tn ev ws) name (fn :: fns)
             = Throw TypeError).
  { intros fn fns. unfold generateService.
    now rewrite (mapM_raises _ TypeError fn fns
                   (generateFunction_raises cwd path parsed tn ev ws fn)). }
  split; [reflexivity |]. split; [apply generateFunction_raises |].
  split; [exact H |]. split.
  - intros fn fns. cbn [convertDefinitionToCode]. now rewrite H.
  - cbn [convertDefinitionToCode]. now rewrite H.
Qed.

End ServiceClaims.

(* ================================================================= *)
(** ** Imports *)

Section ImportClaims.

Import ThriftFileConverter.

Lemma import_lines (cwd : string) (entry_dir : list string)
  (entry_file : string) (files : list Spec.file) :
  forallb Spec.clean (entry_dir ++ [entry_file]) = true ->
  forallb (Spec.file_ok entry_dir) files = true ->
  let entry := Spec.abs_path (entry_dir ++ [entry_file]) in
  map (fun relpath =>
         "import * as " ++ Path.basename relpath ++ " from '" ++ relpath
         ++ ".js';")
    (map (fun p => if negb (Path.has_slash p) then "./" ++ p else p)
       (map (fun p =>
               Path.join2
                 (Path.dirname (Path.relative (Path.dirname entry) p))
                 (Path.basename_ext p ".thrift"))
          (filter (fun p => negb (String.eqb p entry))
             (map (fun p => Path.resolve cwd p)
                (map Spec.file_path files)))))
  = map (Spec.import_statement entry_dir)
      (filter (fun f => negb (String.eqb (Spec.file_path f) entry)) files).
Proof.
  intros He Hfiles entry.
  induction files as [| f files IH]; [reflexivity |].
  cbn [forallb] in Hfiles. apply andb_prop in Hfiles as [Hf Hrest].
  cbn [map filter].
  assert (Hres : Path.resolve cwd (Spec.file_path f) = Spec.file_path f).
  { unfold Spec.file_ok in Hf.
    apply andb_prop in Hf as [Hf _]. apply andb_prop in Hf as [Hf _].
    apply andb_prop in Hf as [Hdir Hname].
    apply resolve_abs_path; [now destruct (fst f) |].
    rewrite forallb_app. simpl. now rewrite Hdir, Hname. }
  rewrite Hres.
  destruct (negb (String.eqb (Spec.file_path f) entry)).
  - cbn [map]. rewrite (IH Hrest). f_equal.
    exact (import_of_file entry_dir entry_file f He Hf).
  - exact (IH Hrest).
Qed.

(** C7: every file of the resolved file set other than the entry file
    contributes exactly one namespace import, whatever the definitions of the
    entry file refer to; the import is bound to the base name of the file and
    names its path relative to the directory of the entry file, without the
    IDL extension, with [./] in front when that path has no directory part. *)
Theorem generateImports_one_per_file (cwd : string) (this : t)
  (entry_dir : list string) (entry_file : string) (files : list Spec.file) :
  thriftPath this = Spec.abs_path (entry_dir ++ [entry_file]) ->
  idls (thrift this) = map Spec.file_path files ->
  forallb Spec.clean (entry_dir ++ [entry_file]) = true ->
  forallb (Spec.file_ok entry_dir) files = true ->
  generateImports cwd this
  = join nl
      (map (Spec.import_statement entry_dir)
         (filter (fun f => negb (String.eqb (Spec.file_path f) (thriftPath this)))
            files))
  /\ forall defs,
       generateImports cwd (Spec.with_definitions this defs)
       = generateImports cwd this.
Proof.
  intros Hentry Hidls He Hfiles. split; [| reflexivity].
  unfold generateImports, getImportAbsPaths. rewrite Hidls, Hentry.
  f_equal. exact (import_lines cwd entry_dir entry_file files He Hfiles).
Qed.

Lemma generateImports_one_per_file_witness :
  generateImports "/w" Examples.sample
  = "import * as shared from './shared.js';" ++ nl
    ++ "import * as t from 'sub/t.js';" ++ nl
    ++ "import * as u from '../b/u.js';".
Proof.
  exact (proj1 (generateImports_one_per_file "/w" Examples.sample ["w"; "a"]
                  "e.thrift" Examples.sample_files
                  eq_refl eq_refl eq_refl eq_refl)).
Defined.

End ImportClaims.

(* ================================================================= *)
(** ** Definitions of an unsupported kind *)

Section SkipClaims.

Import ThriftFileConverter.

Lemma unsupported_is_Other (d : Defn) :
  ~ In (def_type d) Spec.supported_kinds ->
  exists kind id, d = Other kind id.
Proof.
  intros H. destruct d; try (exfalso; apply H; simpl; tauto).
  now eexists _, _.
Qed.

Lemma namespace_unsupported :
  ~ In (def_type Examples.namespace) Spec.supported_kinds.
Proof. simpl. intuition discriminate. Defined.

End SkipClaims.

(* ================================================================= *)
(** ** Names at declaration and reference sites *)

Section NameClaims.

Import ThriftFileConverter.

Lemma occurs_intro (pre pat post s : string) :
  s = pre ++ pat ++ post -> Spec.occurs pat s.
Proof. intros ->. now exists pre, post. Qed.

(** In a list with unique names, the definition of a name decides the enum
    rule. *)
Lemma existsb_unique (n : string) (d : Defn) (defs : list Defn) :
  NoDup (map def_id defs) -> In d defs -> def_id d = Some n ->
  existsb (Spec.is_enum_named n) defs = instanceof_Enum d.
Proof.
  intros Hnd Hin Hd. induction defs as [| d0 defs IH]; [contradiction |].
  cbn [map] in Hnd. inversion Hnd as [| x xs Hnotin Hnd']; subst.
  cbn [existsb]. destruct Hin as [-> | Hin].
  - rewrite Hd in Hnotin. rewrite (existsb_absent n defs Hnotin).
    unfold Spec.is_enum_named. rewrite Hd, String.eqb_refl.
    now rewrite andb_true_r, orb_false_r.
  - rewrite (IH Hnd' Hin).
    assert (Hne : Spec.is_enum_named n d0 = false).
    { unfold Spec.is_enum_named.
      destruct (def_id d0) as [m |] eqn:E; [| now rewrite andb_false_r].
      destruct (String.eqb_spec m n) as [-> | _]; [| now rewrite andb_false_r].
      exfalso. apply Hnotin. rewrite <- Hd. now apply in_map. }
    now rewrite Hne.
Qed.

End NameClaims.

(* ================================================================= *)
(** ** Further properties of the type converter *)

Section ConverterCover.

Variable tn : string -> string.

Lemma has_id_Forall (defs : list Defn) :
  forallb Cover.has_id defs = true ->
  Forall (fun d => def_id d <> None) defs.
Proof.
  induction defs as [| d defs IH]; simpl; intros H; constructor.
  - apply andb_prop in H as [H _]. unfold Cover.has_id in H.
    now destruct (def_id d).
  - apply IH. now apply andb_prop in H as [_ H].
Qed.

Lemma find_first_named (n : string) (defs : list Defn) :
  forallb Cover.has_id defs = true ->
  TypeConverter.find (TypeConverter.name_matches (JStr n)) defs
  = OK (List.find (Cover.named n) defs).
Proof.
  induction defs as [| d defs IH]; simpl; intros H; [reflexivity |].
  apply andb_prop in H as [Hd Hrest].
  unfold TypeConverter.name_matches at 1, Cover.named at 1.
  unfold Cover.has_id in Hd.
  destruct (def_id d) as [m |]; [| discriminate]. simpl.
  destruct (String.eqb m n); [reflexivity | now apply IH].
Qed.

Lemma enumType_named (t : ThriftType) (defs : list Defn) :
  forallb Cover.has_id defs = true ->
  exists v,
    TypeConverter.enumType tn t (Some defs) = OK v /\
    match t with
    | Identifier n =>
        if Cover.resolves_to_enum defs n
        then v = JStr ("$Keys<typeof " ++ tn n ++ ">")
        else truthy v = false
    | _ => truthy v = false
    end.
Proof.
  intros H. unfold TypeConverter.enumType, TypeConverter.isEnum, and_then.
  destruct t as [b a | n | e | e | k v];
    try (cbn [type_name];
         rewrite (find_no_name defs (has_id_Forall defs H)); cbn;
         eexists; split; reflexivity).
  cbn [type_name]. rewrite (find_first_named n defs H).
  unfold Cover.resolves_to_enum. cbn [bind].
  destruct (List.find (Cover.named n) defs) as [d |];
    [| eexists; split; reflexivity].
  cbn [truthy]. destruct (instanceof_Enum d); eexists; split; reflexivity.
Qed.

(** With every definition named, [convert] does not raise: it returns the
    value that the rules give when the enum rule looks at the first
    definition of the name. *)
Lemma convert_named (defs : list Defn) (t : ThriftType) :
  forallb Cover.has_id defs = true ->
  TypeConverter.convert tn t (Some defs) = OK (Cover.convert tn defs t).
Proof.
  intros H.
  induction t as [b a | n | e IH | e IH | k IHk v IHv];
    rewrite convert_unfold;
    cbn [TypeConverter.arrayType TypeConverter.mapType].
  - rewrite (or_else_falsy (JBool false)) by reflexivity.
    destruct (enumType_named (BaseType b a) defs H) as [w [-> Hw]].
    rewrite (or_else_falsy w) by exact Hw.
    rewrite (or_else_falsy JNull) by reflexivity.
    cbn [Cover.convert].
    destruct (truthy (TypeConverter.annotation (BaseType b a))) eqn:Ha.
    + repeat rewrite (or_else_truthy _ _ Ha). reflexivity.
    + rewrite (or_else_falsy _ _ Ha). cbn [TypeConverter.primitives_lookup].
      rewrite or_else_truthy by (destruct b; reflexivity).
      reflexivity.
  - rewrite (or_else_falsy (JBool false)) by reflexivity.
    destruct (enumType_named (Identifier n) defs H) as [w [-> Hw]].
    cbn [Cover.convert].
    destruct (Cover.resolves_to_enum defs n).
    + subst w. repeat rewrite or_else_truthy by reflexivity. reflexivity.
    + rewrite (or_else_falsy w) by exact Hw.
      rewrite (or_else_falsy JNull) by reflexivity.
      rewrite (or_else_falsy (JStr "")) by reflexivity.
      rewrite (or_else_falsy JUndefined) by reflexivity.
      reflexivity.
  - rewrite IH. cbn [bind Cover.convert].
    repeat rewrite or_else_truthy by (apply nonempty_app_r; reflexivity).
    reflexivity.
  - rewrite IH. cbn [bind Cover.convert].
    repeat rewrite or_else_truthy by (apply nonempty_app_r; reflexivity).
    reflexivity.
  - rewrite (or_else_falsy (JBool false)) by reflexivity.
    destruct (enumType_named (MapType k v) defs H) as [w [-> Hw]].
    rewrite (or_else_falsy w) by exact Hw.
    rewrite IHk, IHv. cbn [bind Cover.convert].
    repeat rewrite or_else_truthy by reflexivity.
    reflexivity.
Qed.

(** [find] stops at a definition without [id] that it reaches. *)
Lemma find_raises_at_unnamed (v : jsval) (pre post : list Defn) (d : Defn) :
  def_id d = None ->
  forallb (Cover.unmatched v) pre = true ->
  TypeConverter.find (TypeConverter.name_matches v) (pre ++ d :: post)%list
  = Throw TypeError.
Proof.
  intros Hd. induction pre as [| d' pre IH]; simpl; intros H.
  - unfold TypeConverter.name_matches. now rewrite Hd.
  - apply andb_prop in H as [Hd' Hpre].
    unfold TypeConverter.name_matches at 1. unfold Cover.unmatched in Hd'.
    destruct (def_id d') as [m |]; [| discriminate]. cbn [bind].
    destruct v as [| | b | z | o | n]; try (now apply IH).
    apply negb_true_iff in Hd'. rewrite Hd'. now apply IH.
Qed.

(** [find] returns the first definition of the name and does not look at
    what follows it. *)
Lemma find_stops_at_match (n : string) (pre post : list Defn) (d : Defn) :
  def_id d = Some n ->
  forallb (Cover.unmatched (JStr n)) pre = true ->
  TypeConverter.find (TypeConverter.name_matches (JStr n)) (pre ++ d :: post)%list
  = OK (Some d).
Proof.
  intros Hd. induction pre as [| d' pre IH]; simpl; intros H.
  - unfold TypeConverter.name_matches. rewrite Hd. cbn [bind].
    now rewrite String.eqb_refl.
  - apply andb_prop in H as [Hd' Hpre].
    unfold TypeConverter.name_matches at 1. unfold Cover.unmatched in Hd'.
    destruct (def_id d') as [m |]; [| discriminate]. cbn [bind].
    apply negb_true_iff in Hd'. rewrite Hd'. now apply IH.
Qed.

(** With unique names, the first definition of a name is an enum exactly
    when the list holds an enum of that name. *)
Lemma resolves_to_enum_unique (n : string) (defs : list Defn) :
  NoDup (map def_id defs) ->
  Cover.resolves_to_enum defs n = existsb (Spec.is_enum_named n) defs.
Proof.
  unfold Cover.resolves_to_enum.
  induction defs as [| d defs IH]; [reflexivity |].
  cbn [map List.find existsb]. intros Hnd.
  inversion Hnd as [| x xs Hnotin Hnd']; subst.
  unfold Cover.named at 1, Spec.is_enum_named at 1.
  destruct (def_id d) as [m |].
  - destruct (String.eqb_spec m n) as [-> | _].
    + rewrite (existsb_absent n defs Hnotin).
      now rewrite andb_true_r, orb_false_r.
    + rewrite andb_false_r. now apply IH.
  - rewrite andb_false_r. now apply IH.
Qed.

(** X1: when every definition of the list has a name (names may repeat),
    [convert] never raises: it returns the value of the ordered rules in
    which the enum rule is decided by the first definition of the name. The
    value is a string whenever the annotations are ordinary, and when in
    addition no two definitions share a name it is the string of the rules
    as the specification orders them. *)
Theorem convert_with_named_definitions (defs : list Defn) (t : ThriftType) :
  forallb Cover.has_id defs = true ->
  TypeConverter.convert tn t (Some defs) = OK (Cover.convert tn defs t)
  /\ (Spec.ordinary t = true ->
      exists s, Cover.convert tn defs t = JStr s)
  /\ (Spec.ordinary t = true -> NoDup (map def_id defs) ->
      Cover.convert tn defs t = JStr (Spec.convert tn defs t)).
Proof.
  intros H. split; [now apply convert_named |].
  assert (Hbase : forall b a,
             Spec.ordinary (BaseType b a) = true ->
             Cover.convert tn defs (BaseType b a)
             = JStr (Spec.convert tn defs (BaseType b a))).
  { intros b a Hord. cbn [Cover.convert].
    pose proof (annotation_rule (BaseType b a) Hord) as Ha.
    cbn [Spec.convert Spec.first_match Spec.rule_container Spec.rule_enum
         Spec.rule_map].
    destruct (Spec.rule_annotated_i64 (BaseType b a)) as [s |].
    - destruct Ha as [Ha Hs]. rewrite Ha. cbn [truthy]. now rewrite Hs.
    - rewrite Ha, primitives_table. reflexivity. }
  split.
  - induction t as [b a | n | e IH | e IH | k IHk v IHv]; intros Hord;
      try (cbn [Cover.convert]; now eexists).
    rewrite (Hbase b a Hord). now eexists.
  - intros Hord Hnd.
    induction t as [b a | n | e IH | e IH | k IHk v IHv];
      cbn [Spec.ordinary] in Hord.
    + now apply Hbase.
    + cbn [Cover.convert Spec.convert Spec.first_match Spec.rule_container
           Spec.rule_enum].
      rewrite (resolves_to_enum_unique n defs Hnd).
      now destruct (existsb (Spec.is_enum_named n) defs).
    + cbn [Cover.convert]. now rewrite (IH Hord).
    + cbn [Cover.convert]. now rewrite (IH Hord).
    + apply andb_prop in Hord as [Hk Hv].
      cbn [Cover.convert]. now rewrite (IHk Hk), (IHv Hv).
Qed.

(** X2: the first definition of a name decides a reference to it; the
    definitions after it are not inspected, not even one without [id] or a
    second one of the same name. *)
Theorem convert_first_definition_decides (n : string) (pre post : list Defn)
  (d : Defn) :
  def_id d = Some n ->
  forallb (Cover.unmatched (JStr n)) pre = true ->
  TypeConverter.convert tn (Identifier n) (Some (pre ++ d :: post)%list)
  = OK (JStr (if instanceof_Enum d
              then "$Keys<typeof " ++ tn n ++ ">"
              else tn n)).
Proof.
  intros Hd Hpre. rewrite convert_unfold.
  cbn [TypeConverter.arrayType TypeConverter.mapType].
  rewrite (or_else_falsy (JBool false)) by reflexivity.
  unfold TypeConverter.enumType, TypeConverter.isEnum, and_then.
  cbn [type_name]. rewrite (find_stops_at_match n pre post d Hd Hpre).
  cbn [bind truthy]. destruct (instanceof_Enum d).
  - repeat rewrite or_else_truthy by reflexivity. reflexivity.
  - rewrite (or_else_falsy (JBool false)) by reflexivity.
    rewrite (or_else_falsy JNull) by reflexivity.
    rewrite (or_else_falsy (JStr "")) by reflexivity.
    rewrite (or_else_falsy JUndefined) by reflexivity.
    reflexivity.
Qed.

(** X3: a definition without [id] that the lookup reaches makes the
    conversion raise: for a type whose element is not a name the lookup scans
    the whole list, for a name it scans up to the first definition of that
    name. *)
Theorem convert_raises_at_unnamed_definition (t : ThriftType)
  (pre post : list Defn) (d : Defn) :
  def_id d = None ->
  forallb (Cover.unmatched (type_name (Cover.element t))) pre = true ->
  TypeConverter.convert tn t (Some (pre ++ d :: post)%list) = Throw TypeError.
Proof.
  intros Hd.
  induction t as [b a | n | e IH | e IH | k IHk v IHv]; intros Hpre;
    rewrite convert_unfold;
    cbn [TypeConverter.arrayType TypeConverter.mapType];
    try (cbn [Cover.element] in Hpre; rewrite (IH Hpre); reflexivity);
    rewrite (or_else_falsy (JBool false)) by reflexivity;
    unfold TypeConverter.enumType, TypeConverter.isEnum, and_then;
    cbn [Cover.element] in Hpre;
    rewrite (find_raises_at_unnamed _ pre post d Hd Hpre); reflexivity.
Qed.

End ConverterCover.

Section ConverterIndependence.

Lemma nameless_convert_equal (tn tn' : string -> string)
  (defs defs' : list Defn) (t : ThriftType) :
  Cover.nameless t = true ->
  Cover.convert tn defs t = Cover.convert tn' defs' t.
Proof.
  induction t as [b a | n | e IH | e IH | k IHk v IHv];
    cbn [Cover.nameless Cover.convert]; intros Ht.
  - reflexivity.
  - discriminate.
  - now rewrite IH.
  - now rewrite IH.
  - apply andb_prop in Ht as [Hk Hv]. now rewrite IHk, IHv.
Qed.

(** X4: a type without named references converts to the same text whatever
    the name transform and whatever the (named) definitions. *)
Theorem convert_nameless_independent (tn tn' : string -> string)
  (defs defs' : list Defn) (t : ThriftType) :
  Cover.nameless t = true ->
  forallb Cover.has_id defs = true ->
  forallb Cover.has_id defs' = true ->
  TypeConverter.convert tn t (Some defs)
  = TypeConverter.convert tn' t (Some defs').
Proof.
  intros Ht H H'.
  rewrite (convert_named tn defs t H), (convert_named tn' defs' t H').
  now rewrite (nameless_convert_equal tn tn' defs defs' t Ht).
Qed.


End ConverterIndependence.

(* ================================================================= *)
(** ** Further properties of the declaration generator *)

Section GeneratorCover.

Import ThriftFileConverter.

Variable cwd : string.
Variable now : string.
Variable prettier_format : string -> exc string.

Lemma converted_block (path : string) (parsed : Thrift)
  (tn : string -> string) (ev ws : bool) (d : Defn) :
  convertDefinitionToCode (new cwd path parsed tn ev ws) d
  = if Cover.type_free d
    then (OK (Cover.block (new cwd path parsed tn ev ws) d),
          Cover.warnings (new cwd path parsed tn ev ws) [d])
    else (Throw TypeError, []).
Proof.
  destruct d as [name fields | name fields | name fields | name members
                | name ty | name fns | name ty lit | kind id];
    cbn [convertDefinitionToCode Cover.type_free].
  - destruct fields as [| f fields]; [reflexivity |].
    unfold generateStruct. now rewrite generateStructContents_raises.
  - destruct fields as [| f fields]; [reflexivity |].
    unfold generateStruct. now rewrite generateStructContents_raises.
  - destruct fields as [| f fields]; [reflexivity |].
    unfold generateUnion. now rewrite generateUnionContents_raises.
  - reflexivity.
  - unfold generateTypedef. now rewrite types_convert_raises.
  - destruct fns as [| fn fns]; [reflexivity |].
    unfold generateService.
    now rewrite (mapM_raises _ TypeError fn fns (generateFunction_raises _ _ _ _ _ _ fn)).
  - unfold generateConst. now rewrite types_convert_raises.
  - reflexivity.
Qed.

Lemma warnings_cons (this : t) (d : Defn) (defs : list Defn) :
  Cover.warnings this (d :: defs)
  = (Cover.warnings this [d] ++ Cover.warnings this defs)%list.
Proof. unfold Cover.warnings. cbn [filter]. now destruct (Cover.is_other d). Qed.

Lemma io_mapM_type_free (path : string) (parsed : Thrift)
  (tn : string -> string) (ev ws : bool) (defs : list Defn) :
  forallb Cover.type_free defs = true ->
  io_mapM (convertDefinitionToCode (new cwd path parsed tn ev ws)) defs
  = (OK (map (Cover.block (new cwd path parsed tn ev ws)) defs),
     Cover.warnings (new cwd path parsed tn ev ws) defs).
Proof.
  induction defs as [| d defs IH]; [reflexivity |].
  cbn [forallb]. intros H. apply andb_prop in H as [Hd Hrest].
  cbn [io_mapM]. rewrite converted_block, Hd, (IH Hrest).
  unfold io_bind, io_ret. cbn [map].
  now rewrite app_nil_r, <- warnings_cons.
Qed.

Lemma io_mapM_first_slot (path : string) (parsed : Thrift)
  (tn : string -> string) (ev ws : bool) (pre post : list Defn) (d : Defn) :
  forallb Cover.type_free pre = true ->
  Cover.type_free d = false ->
  io_mapM (convertDefinitionToCode (new cwd path parsed tn ev ws))
    (pre ++ d :: post)%list
  = (Throw TypeError, Cover.warnings (new cwd path parsed tn ev ws) pre).
Proof.
  intros Hpre Hd. induction pre as [| d' pre IH].
  - cbn [app io_mapM]. now rewrite converted_block, Hd.
  - cbn [forallb] in Hpre. apply andb_prop in Hpre as [Hd' Hpre].
    cbn [app io_mapM]. rewrite converted_block, Hd', (IH Hpre).
    unfold io_bind. now rewrite <- warnings_cons.
Qed.

(** X6: with the converter that the constructor builds, a definition is
    rendered exactly when it asks for no type conversion: an enum, a struct,
    exception or union without fields, a service without functions (and a
    definition of an unsupported kind, rendered as nothing with its warning);
    every typedef, every constant, and every struct, exception, union or
    service with a member raises a TypeError and prints nothing. *)
Theorem convertDefinitionToCode_renders_type_free_only (path : string)
  (parsed : Thrift) (tn : string -> string) (ev ws : bool) (d : Defn) :
  convertDefinitionToCode (new cwd path parsed tn ev ws) d
  = (if Cover.type_free d
     then (OK (Cover.block (new cwd path parsed tn ev ws) d),
           Cover.warnings (new cwd path parsed tn ev ws) [d])
     else (Throw TypeError, []))
  /\ ((exists v out,
         convertDefinitionToCode (new cwd path parsed tn ev ws) d = (OK v, out))
      <-> Cover.type_free d = true).
Proof.
  split; [apply converted_block |].
  rewrite converted_block. destruct (Cover.type_free d); split.
  - reflexivity.
  - intros _. now eexists _, _.
  - intros [v [out E]]. discriminate.
  - discriminate.
Qed.

(** X7: the generation of a file stops at its first definition with a type
    slot: it raises a TypeError whatever prettier would do, and the log holds
    the warnings of the unsupported definitions before that one, and no
    other. *)
Theorem generateFlowFile_raises_at_first_type_slot (path : string)
  (tn : string -> string) (ev ws : bool) (keys : list string)
  (pre post : list Defn) (d : Defn) :
  forallb Cover.type_free pre = true ->
  Cover.type_free d = false ->
  generateFlowFile cwd now prettier_format
    (new cwd path (mkThrift (pre ++ d :: post)%list keys) tn ev ws)
  = (Throw TypeError,
     Cover.warnings (new cwd path (mkThrift (pre ++ d :: post)%list keys) tn ev ws)
       pre).
Proof.
  intros Hpre Hd. unfold generateFlowFile.
  cbn [new thrift definitions].
  change (mk (Path.resolve cwd path) (mkThrift (pre ++ d :: post)%list keys)
            (TypeConverter.new tn) tn ev ws)
    with (new cwd path (mkThrift (pre ++ d :: post)%list keys) tn ev ws).
  now rewrite (io_mapM_first_slot path _ tn ev ws pre post d Hpre Hd).
Qed.

(** X8: for a file whose definitions ask for no type conversion, the
    generation returns what prettier returns for the text of the header, the
    imports and the blocks of the definitions in order, and the log is the
    warnings of the unsupported definitions in order. *)
Theorem generateFlowFile_of_type_free_file (path : string)
  (tn : string -> string) (ev ws : bool) (keys : list string)
  (defs : list Defn) :
  forallb Cover.type_free defs = true ->
  let this := new cwd path (mkThrift defs keys) tn ev ws in
  generateFlowFile cwd now prettier_format this
  = (prettier_format
       (flowFileText cwd now this (map (Cover.block this) defs)),
     Cover.warnings this defs).
Proof.
  intros H this. unfold generateFlowFile.
  change (definitions (thrift this)) with defs. unfold this.
  rewrite (io_mapM_type_free path _ tn ev ws defs H).
  unfold io_bind, io_lift. now rewrite app_nil_r.
Qed.

End GeneratorCover.

(* ================================================================= *)
(** ** Further properties of the document and its imports *)

Section DocumentCover.

Import ThriftFileConverter.

Variable cwd : string.
Variable now : string.

Lemma str_app_empty (a : string) : a ++ "" = a.
Proof. induction a as [| x a IH]; simpl; [reflexivity | now rewrite IH]. Qed.

Lemma join_two_more (sep a b : string) (l : list string) :
  join sep (a :: b :: l)
  = a ++ sep ++ b
    ++ match l with
       | [] => ""
       | _ => sep ++ join sep l
       end.
Proof.
  rewrite join_cons. destruct l as [| c l].
  - cbn [join String.concat]. now rewrite str_app_empty.
  - now rewrite join_cons.
Qed.

(** The marker and the timestamp line are never filtered out. *)
Lemma flowFileText_blocks (this : t) (blocks : list jsval) :
  flowFileText cwd now this blocks
  = join (nl ++ nl)
      ("// @flow" :: Cover.timestamp_line now this
       :: map ToString
            (filter truthy (JStr (generateImports cwd this) :: blocks))).
Proof. reflexivity. Qed.

Lemma header_join (this : t) (l : list string) :
  join (nl ++ nl) ("// @flow" :: Cover.timestamp_line now this :: l)
  = Cover.header now this
    ++ match l with
       | [] => ""
       | _ => (nl ++ nl) ++ join (nl ++ nl) l
       end.
Proof.
  rewrite join_two_more. unfold Cover.header.
  now rewrite !str_app_assoc.
Qed.

(** X9: every document starts with the dialect marker and the timestamp
    line, followed by the source line exactly when [withsource] is set;
    whatever follows is separated from them by a blank line. *)
Theorem flowFileText_starts_with_header (this : t) (blocks : list jsval) :
  exists rest,
    flowFileText cwd now this blocks = Cover.header now this ++ rest
    /\ (rest = "" \/ exists more, rest = nl ++ nl ++ more).
Proof.
  rewrite flowFileText_blocks, header_join.
  destruct (map ToString
              (filter truthy (JStr (generateImports cwd this) :: blocks)))
    as [| x l].
  - exists "". split; [reflexivity | now left].
  - exists ((nl ++ nl) ++ join (nl ++ nl) (x :: l)). split; [reflexivity |].
    right. exists (join (nl ++ nl) (x :: l)). now rewrite str_app_assoc.
Qed.

Lemma filter_none {A : Type} (p : A -> bool) (l : list A) :
  (forall a, In a l -> p a = false) -> filter p l = [].
Proof.
  induction l as [| a l IH]; intros H; [reflexivity |].
  cbn [filter]. rewrite (H a (or_introl eq_refl)).
  apply IH. intros b Hb. apply H. now right.
Qed.

(** X10: when the resolved file set holds no file but the entry file, the
    import text is empty and the document has no import block: the blocks of
    the definitions follow the header directly. *)
Theorem no_imports_no_block (this : t) :
  (forall p, In p (idls (thrift this)) -> Path.resolve cwd p = thriftPath this) ->
  generateImports cwd this = ""
  /\ forall blocks,
       flowFileText cwd now this blocks
       = Cover.header now this
         ++ match map ToString (filter truthy blocks) with
            | [] => ""
            | rendered => (nl ++ nl) ++ join (nl ++ nl) rendered
            end.
Proof.
  intros H.
  assert (E : generateImports cwd this = "").
  { unfold generateImports, getImportAbsPaths.
    rewrite filter_none; [reflexivity |].
    intros p Hp. apply in_map_iff in Hp as [q [<- Hq]].
    rewrite (H q Hq). now rewrite String.eqb_refl. }
  split; [exact E |]. intros blocks.
  rewrite flowFileText_blocks, header_join, E.
  cbn [filter truthy nonempty].
  now destruct (map ToString (filter truthy blocks)).
Qed.

End DocumentCover.

(* ================================================================= *)
(** ** Further properties of the import paths *)

Section ImportCover.

Import ThriftFileConverter.

Variable cwd : string.

Lemma strip_common_app (c a b : list string) :
  Path.strip_common (c ++ a) (c ++ b) = Path.strip_common a b.
Proof.
  induction c as [| x c IH]; [reflexivity |].
  cbn [app Path.strip_common]. now rewrite String.eqb_refl.
Qed.

Lemma strip_common_nil_l (b : list string) : Path.strip_common [] b = ([], b).
Proof. now destruct b. Qed.

Lemma file_ok_clean (entry_dir : list string) (f : Spec.file) :
  Spec.file_ok entry_dir f = true ->
  forallb Spec.clean (fst f ++ [snd f]) = true.
Proof.
  unfold Spec.file_ok. intros H.
  apply andb_prop in H as [H _]. apply andb_prop in H as [H _].
  apply andb_prop in H as [Hdir Hname].
  rewrite forallb_app. simpl. now rewrite Hdir, Hname.
Qed.

(** The import text when the file set holds one file, which is not the entry
    file. *)
Lemma single_import (this : t) (entry_dir : list string) (entry_file : string)
  (f : Spec.file) :
  thriftPath this = Spec.abs_path (entry_dir ++ [entry_file]) ->
  idls (thrift this) = [Spec.file_path f] ->
  forallb Spec.clean (entry_dir ++ [entry_file]) = true ->
  Spec.file_ok entry_dir f = true ->
  (fst f ++ [snd f])%list <> (entry_dir ++ [entry_file])%list ->
  generateImports cwd this = Spec.import_statement entry_dir f.
Proof.
  intros Hentry Hidls He Hf Hne.
  unfold generateImports, getImportAbsPaths. rewrite Hidls, Hentry.
  change [Spec.file_path f] with (map Spec.file_path [f]).
  rewrite (import_lines cwd entry_dir entry_file [f] He);
    [| cbn [forallb]; now rewrite Hf].
  cbn [filter].
  destruct (String.eqb_spec (Spec.file_path f)
              (Spec.abs_path (entry_dir ++ [entry_file]))) as [E | _];
    [| reflexivity].
  exfalso. apply Hne.
  rewrite <- (components_abs_path (fst f ++ [snd f]));
    [| now destruct (fst f) | exact (file_ok_clean entry_dir f Hf)].
  rewrite <- (components_abs_path (entry_dir ++ [entry_file]));
    [| now destruct entry_dir | exact He].
  unfold Spec.file_path in E. now rewrite E.
Qed.

(** X11: a file in a directory below the directory of the entry file is
    imported by the path of that directory from there, without [./] in
    front. *)
Theorem import_of_file_below (this : t) (entry_dir : list string)
  (entry_file : string) (sub : list string) (name : string) :
  thriftPath this = Spec.abs_path (entry_dir ++ [entry_file]) ->
  idls (thrift this) = [Spec.file_path ((entry_dir ++ sub)%list, name)] ->
  forallb Spec.clean (entry_dir ++ [entry_file]) = true ->
  Spec.file_ok entry_dir ((entry_dir ++ sub)%list, name) = true ->
  sub <> [] ->
  generateImports cwd this
  = "import * as " ++ Spec.strip_extension name ++ " from '"
    ++ join "/" (sub ++ [Spec.strip_extension name]) ++ ".js';".
Proof.
  intros Hentry Hidls He Hf Hsub.
  rewrite (single_import this entry_dir entry_file _ Hentry Hidls He Hf).
  - unfold Spec.import_statement, Spec.module_path, Spec.relative_dir.
    cbn [fst snd].
    rewrite <- (app_nil_r entry_dir) at 1.
    rewrite strip_common_app, strip_common_nil_l. cbn [length Spec.dotdots repeat app].
    destruct sub as [| s sub]; [congruence | reflexivity].
  - cbn [fst snd]. intros E. apply (f_equal (@length string)) in E.
    rewrite !length_app in E. cbn [length] in E.
    destruct sub; [congruence | cbn [length] in E; lia].
Qed.

(** X12: a file whose directory leaves the directory of the entry file is
    imported by one [..] for each directory level of the entry file below
    the common ancestor, then the way down to the file. *)
Theorem import_of_file_outside (this : t) (common : list string) (x : string)
  (up down : list string) (entry_file name : string) :
  thriftPath this
  = Spec.abs_path ((common ++ x :: up) ++ [entry_file]) ->
  idls (thrift this) = [Spec.file_path ((common ++ down)%list, name)] ->
  forallb Spec.clean ((common ++ x :: up) ++ [entry_file]) = true ->
  Spec.file_ok (common ++ x :: up) ((common ++ down)%list, name) = true ->
  Spec.is_prefix [x] down = false ->
  generateImports cwd this
  = "import * as " ++ Spec.strip_extension name ++ " from '"
    ++ join "/" (Spec.dotdots (S (length up)) ++ down
                 ++ [Spec.strip_extension name])
    ++ ".js';".
Proof.
  intros Hentry Hidls He Hf Hx.
  rewrite (single_import this (common ++ x :: up) entry_file _
             Hentry Hidls He Hf).
  - unfold Spec.import_statement, Spec.module_path, Spec.relative_dir.
    cbn [fst snd]. rewrite strip_common_app.
    assert (E : Path.strip_common (x :: up) down = (x :: up, down)).
    { destruct down as [| y down]; [reflexivity |].
      cbn [Spec.is_prefix] in Hx. rewrite andb_true_r in Hx.
      cbn [Path.strip_common]. now rewrite Hx. }
    rewrite E. cbn [length Spec.dotdots repeat app].
    now rewrite <- app_assoc.
  - cbn [fst snd]. rewrite <- !app_assoc. intros E.
    apply app_inv_head in E. cbn [app] in E.
    destruct down as [| y down].
    + cbn [app] in E. injection E as _ E. now destruct up.
    + cbn [app] in E. injection E as Ey _.
      cbn [Spec.is_prefix] in Hx. rewrite andb_true_r in Hx.
      subst y. now rewrite String.eqb_refl in Hx.
Qed.

End ImportCover.

(* ================================================================= *)
(** ** Definitions of unsupported kinds in a file *)

Section UnsupportedKinds.

Import ThriftFileConverter.

Variable cwd : string.
Variable now : string.
Variable prettier_format : string -> exc string.

Lemma warnings_app (this : t) (l1 l2 : list Defn) :
  Cover.warnings this (l1 ++ l2)%list
  = (Cover.warnings this l1 ++ Cover.warnings this l2)%list.
Proof. unfold Cover.warnings. rewrite filter_app. apply map_app. Qed.

(** The null of a skipped definition is filtered out of the blocks. *)
Lemma filter_skips (this : t) (x : jsval) (before after : list Defn)
  (kind : string) (id : option string) :
  filter truthy
    (x :: map (Cover.block this) (before ++ Other kind id :: after)%list)
  = filter truthy
      (x :: (map (Cover.block this) before
             ++ map (Cover.block this) after)%list).
Proof.
  cbn [filter]. rewrite map_app, !filter_app.
  cbn [map filter Cover.block truthy]. reflexivity.
Qed.

Lemma generateFlowFile_run (this : t) :
  generateFlowFile cwd now prettier_format this
  = io_bind (io_mapM (convertDefinitionToCode this) (definitions (thrift this)))
      (fun blocks =>
         io_lift (prettier_format (flowFileText cwd now this blocks))).
Proof. reflexivity. Qed.

(** C8: a definition of an unsupported kind is rendered as null with one
    warning [<file>: Skipping <kind> <name or ?>]. In a file whose other
    definitions ask for no type conversion the document is the header, the
    imports and the blocks of the other definitions, and the log holds the
    warning at its place. The run is aborted all the same by any definition
    with a type slot: when one comes before the unsupported definition, the
    generation raises a TypeError and the warning is never logged; when one
    comes after, the warning is logged and the generation raises. *)
Theorem unsupported_kind_is_skipped (path : string) (tn : string -> string)
  (ev ws : bool) (keys : list string) (d : Defn) :
  ~ In (def_type d) Spec.supported_kinds ->
  let warning :=
    Path.basename (Path.resolve cwd path) ++ ": Skipping " ++ def_type d ++ " "
    ++ match def_id d with
       | Some name => name
       | None => "?"
       end in
  (forall defs,
      convertDefinitionToCode (new cwd path (mkThrift defs keys) tn ev ws) d
      = (OK JNull, [warning]))
  /\ (forall before after,
         forallb Cover.type_free before = true ->
         forallb Cover.type_free after = true ->
         let this :=
           new cwd path (mkThrift (before ++ d :: after)%list keys) tn ev ws in
         generateFlowFile cwd now prettier_format this
         = (prettier_format
              (join (nl ++ nl)
                 ("// @flow" :: Cover.timestamp_line now this
                  :: map ToString
                       (filter truthy
                          (JStr (generateImports cwd this)
                           :: (map (Cover.block this) before
                               ++ map (Cover.block this) after)%list)))),
            (Cover.warnings this before
             ++ warning :: Cover.warnings this after)%list))
  /\ (forall before slot between after,
         forallb Cover.type_free before = true ->
         Cover.type_free slot = false ->
         let this :=
           new cwd path
             (mkThrift (before ++ slot :: between ++ d :: after)%list keys)
             tn ev ws in
         generateFlowFile cwd now prettier_format this
         = (Throw TypeError, Cover.warnings this before))
  /\ (forall name ty after,
         generateFlowFile cwd now prettier_format
           (new cwd path (mkThrift (Typedef name ty :: d :: after) keys)
              tn ev ws)
         = (Throw TypeError, []))
  /\ (forall name ty after,
         generateFlowFile cwd now prettier_format
           (new cwd path (mkThrift (d :: Typedef name ty :: after) keys)
              tn ev ws)
         = (Throw TypeError, [warning])).
Proof.
  intros Hd warning.
  destruct (unsupported_is_Other d Hd) as [kind [id ->]]. subst warning.
  split; [intros defs; reflexivity |].
  split; [| split; [| split]].
  - intros before after Hb Ha this.
    rewrite generateFlowFile_run. change (definitions (thrift this))
      with (before ++ Other kind id :: after)%list.
    unfold this at 1.
    rewrite (io_mapM_type_free cwd path _ tn ev ws
               (before ++ Other kind id :: after)%list).
    + fold this. unfold io_bind, io_lift. rewrite app_nil_r.
      rewrite flowFileText_blocks, filter_skips, warnings_app.
      rewrite (warnings_cons this (Other kind id) after). reflexivity.
    + rewrite forallb_app. cbn [forallb Cover.type_free].
      now rewrite Hb, Ha.
  - intros before slot between after Hb Hs this.
    rewrite generateFlowFile_run. change (definitions (thrift this))
      with (before ++ slot :: between ++ Other kind id :: after)%list.
    unfold this at 1.
    rewrite (io_mapM_first_slot cwd path _ tn ev ws before
               (between ++ Other kind id :: after)%list slot Hb Hs).
    reflexivity.
  - intros name ty after. rewrite generateFlowFile_run.
    cbn [new thrift definitions].
    change (mk (Path.resolve cwd path)
              (mkThrift (Typedef name ty :: Other kind id :: after) keys)
              (TypeConverter.new tn) tn ev ws)
      with (new cwd path
              (mkThrift (Typedef name ty :: Other kind id :: after) keys)
              tn ev ws).
    rewrite (io_mapM_first_slot cwd path _ tn ev ws []
               (Other kind id :: after) (Typedef name ty) eq_refl eq_refl).
    reflexivity.
  - intros name ty after. rewrite generateFlowFile_run.
    cbn [new thrift definitions].
    change (mk (Path.resolve cwd path)
              (mkThrift (Other kind id :: Typedef name ty :: after) keys)
              (TypeConverter.new tn) tn ev ws)
      with (new cwd path
              (mkThrift (Other kind id :: Typedef name ty :: after) keys)
              tn ev ws).
    rewrite (io_mapM_first_slot cwd path _ tn ev ws [Other kind id]
               after (Typedef name ty) eq_refl eq_refl).
    reflexivity.
Qed.

End UnsupportedKinds.

(* ================================================================= *)
(** ** Names at declaration sites and at reference sites *)

Section NamesAtSites.

Import ThriftFileConverter.

Variable cwd : string.

(** C9: a declaration that is rendered names its definition
    [transformName(name)]: the struct, exception and union without fields,
    the service without functions and the enum, and nothing else is
    rendered. No reference site emits an identifier: the converter call that
    every reference site makes raises a TypeError, and so does the rendering
    of every typedef, constant, field or function that refers to the
    definition. Only under a call that passes a well-formed definition list,
    which no reference site makes, does the reference give the same
    [transformName(name)], inside a keys-of expression when the definition
    is an enum. *)
Theorem name_transform_consistent (path : string) (parsed : Thrift)
  (tn : string -> string) (ev ws : bool) (n : string) :
  let this := new cwd path parsed tn ev ws in
  (convertDefinitionToCode this (Struct n [])
   = (OK (JStr ("export type " ++ tn n ++ " = {||};")), [])
   /\ convertDefinitionToCode this (Exception n [])
      = (OK (JStr ("export type " ++ tn n ++ " = {||};")), [])
   /\ convertDefinitionToCode this (Union n [])
      = (OK (JStr ("export type " ++ tn n ++ " = {||};")), [])
   /\ convertDefinitionToCode this (Service n [])
      = (OK (JStr ("export type " ++ tn n ++ " = {" ++ nl ++ "};")), [])
   /\ forall members,
        convertDefinitionToCode this (Enum n members)
        = (OK (JStr
                 (if ev
                  then "export type " ++ tn n ++ " = "
                       ++ generateEnumValues members ++ ";" ++ nl
                       ++ "       export type " ++ tn n ++ "Keys = "
                       ++ generateEnumKeys members ++ ";"
                  else "export type " ++ tn n ++ "Values = "
                       ++ generateEnumValues members ++ ";" ++ nl
                       ++ "      export type " ++ tn n ++ " = "
                       ++ generateEnumKeys members ++ ";")), []))
  /\ (forall d code,
         def_id d = Some n ->
         fst (convertDefinitionToCode this d) = OK (JStr code) ->
         Cover.type_free d = true
         /\ Spec.occurs ("export type " ++ tn n ++ " = ") code)
  /\ TypeConverter.convert_ (types this) (Identifier n) None = Throw TypeError
  /\ (forall name,
         convertDefinitionToCode this (Typedef name (Identifier n))
         = (Throw TypeError, []))
  /\ (forall name lit,
         convertDefinitionToCode this (Const name (Identifier n) lit)
         = (Throw TypeError, []))
  /\ (forall name before after fname opt,
         let fields :=
           (before ++ mkField fname (Identifier n) opt :: after)%list in
         convertDefinitionToCode this (Struct name fields)
         = (Throw TypeError, [])
         /\ convertDefinitionToCode this (Exception name fields)
            = (Throw TypeError, [])
         /\ convertDefinitionToCode this (Union name fields)
            = (Throw TypeError, []))
  /\ (forall name before after fname params,
         convertDefinitionToCode this
           (Service name
              (before ++ mkFunction fname params (Identifier n) :: after)%list)
         = (Throw TypeError, []))
  /\ (forall defs d,
         Spec.well_formed defs -> In d defs -> def_id d = Some n ->
         TypeConverter.convert tn (Identifier n) (Some defs)
         = OK (JStr (if instanceof_Enum d
                     then "$Keys<typeof " ++ tn n ++ ">"
                     else tn n)))
  /\ TypeConverter.convert Cover.suffixed (Identifier "Color")
       (Some Examples.sample_defs)
     = OK (JStr "$Keys<typeof ColorT>")
  /\ TypeConverter.convert Cover.suffixed (Identifier "Empty")
       (Some Examples.sample_defs)
     = OK (JStr "EmptyT").
Proof.
  intros this.
  split; [repeat split; reflexivity |].
  split.
  { intros d code Hn. unfold this. rewrite converted_block.
    destruct (Cover.type_free d) eqn:Hfree; [| discriminate].
    cbn [fst]. intros [= Hcode]. split; [reflexivity |].
    destruct d as [name fields | name fields | name fields | name members
                  | name ty | name fns | name ty lit | kind id];
      try discriminate; injection Hn as ->;
      cbn [Cover.block] in Hcode; injection Hcode as <-;
      unfold Spec.export_type, generateEnum;
      cbn [new transformName enumvalues].
    - apply (occurs_intro "" _ "{||};").
      rewrite ?str_app_assoc. reflexivity.
    - apply (occurs_intro "" _ "{||};").
      rewrite ?str_app_assoc. reflexivity.
    - apply (occurs_intro "" _ "{||};").
      rewrite ?str_app_assoc. reflexivity.
    - destruct ev.
      + apply (occurs_intro "" _
                 (generateEnumValues members ++ ";" ++ nl
                  ++ "       export type " ++ tn n ++ "Keys = "
                  ++ generateEnumKeys members ++ ";")).
        rewrite ?str_app_assoc. reflexivity.
      + apply (occurs_intro
                 ("export type " ++ tn n ++ "Values = "
                  ++ generateEnumValues members ++ ";" ++ nl ++ "      ")
                 _ (generateEnumKeys members ++ ";")).
        rewrite ?str_app_assoc. reflexivity.
    - apply (occurs_intro "" _ ("{" ++ nl ++ "};")).
      rewrite ?str_app_assoc. reflexivity. }
  split; [apply types_convert_raises |].
  split; [intros name; unfold this; now rewrite converted_block |].
  split; [intros name lit; unfold this; now rewrite converted_block |].
  split.
  { intros name before after fname opt fields. unfold this.
    rewrite !converted_block. unfold fields.
    destruct before; repeat split; reflexivity. }
  split.
  { intros name before after fname params. unfold this.
    rewrite converted_block. destruct before; reflexivity. }
  split.
  { intros defs d Hwf Hin Hd.
    rewrite (convert_defined tn defs (Identifier n) Hwf eq_refl).
    cbn [Spec.convert Spec.first_match Spec.rule_container Spec.rule_enum].
    rewrite (existsb_unique n d defs (proj2 Hwf) Hin Hd).
    now destruct (instanceof_Enum d). }
  split.
  - rewrite (convert_defined Cover.suffixed Examples.sample_defs
               (Identifier "Color") sample_defs_well_formed eq_refl).
    reflexivity.
  - rewrite (convert_defined Cover.suffixed Examples.sample_defs
               (Identifier "Empty") sample_defs_well_formed eq_refl).
    reflexivity.
Qed.

End NamesAtSites.

(* ================================================================= *)
(** ** Instances of the further properties *)

Section CoverInstances.

Import ThriftFileConverter.

Lemma convert_with_named_definitions_witness :
  TypeConverter.convert Cover.suffixed (SetType (Identifier "A"))
    (Some [Struct "A" []; Enum "A" []])
  = OK (JStr "AT[]").
Proof.
  exact (proj1 (convert_with_named_definitions Cover.suffixed
                  [Struct "A" []; Enum "A" []] (SetType (Identifier "A"))
                  eq_refl)).
Defined.

Lemma convert_first_definition_decides_witness :
  TypeConverter.convert Cover.suffixed (Identifier "Color")
    (Some ([Struct "B" []] ++ Examples.color
             :: [Other "Senum" None; Struct "Color" []])%list)
  = OK (JStr "$Keys<typeof ColorT>").
Proof.
  exact (convert_first_definition_decides Cover.suffixed "Color"
           [Struct "B" []] [Other "Senum" None; Struct "Color" []]
           Examples.color eq_refl eq_refl).
Defined.

Lemma convert_raises_at_unnamed_definition_witness :
  TypeConverter.convert Cover.suffixed (ListType (BaseType string_ None))
    (Some ([Examples.color] ++ Examples.namespace :: [])%list)
  = Throw TypeError.
Proof.
  exact (convert_raises_at_unnamed_definition Cover.suffixed
           (ListType (BaseType string_ None)) [Examples.color] []
           Examples.namespace eq_refl eq_refl).
Defined.

Lemma convert_nameless_independent_witness :
  TypeConverter.convert Examples.same_name Cover.string_lists (Some [])
  = TypeConverter.convert Cover.suffixed Cover.string_lists
      (Some Examples.sample_defs).
Proof.
  exact (convert_nameless_independent Examples.same_name Cover.suffixed
           [] Examples.sample_defs Cover.string_lists
           eq_refl eq_refl eq_refl).
Defined.



Lemma generateFlowFile_raises_at_first_type_slot_witness :
  generateFlowFile "/w" "now" (fun text => OK text)
    (new "/w" "/w/a/e.thrift"
       (mkThrift ([Examples.color; Examples.namespace] ++ Cover.alias
                    :: [Examples.empty_struct])%list [])
       Examples.same_name false false)
  = (Throw TypeError, ["e.thrift: Skipping Namespace ?"]).
Proof.
  exact (generateFlowFile_raises_at_first_type_slot "/w" "now"
           (fun text => OK text) "/w/a/e.thrift" Examples.same_name false false
           [] [Examples.color; Examples.namespace] [Examples.empty_struct]
           Cover.alias eq_refl eq_refl).
Defined.

Lemma generateFlowFile_of_type_free_file_witness :
  generateFlowFile "/w" "now" (fun text => OK text) Cover.entry_only
  = (OK ("// @flow" ++ nl ++ nl
         ++ "// Generated by thrift2flow at now" ++ nl
         ++ "// Source: /w/a/e.thrift" ++ nl ++ nl
         ++ "export type ColorValues = 0 | 1 | 2;" ++ nl
         ++ "      export type Color = "
         ++ dquote ++ "RED" ++ dquote ++ " | "
         ++ dquote ++ "GREEN" ++ dquote ++ " | "
         ++ dquote ++ "BLUE" ++ dquote ++ ";;" ++ nl ++ nl
         ++ "export type Empty = {||};"),
     ["e.thrift: Skipping Namespace ?"]).
Proof.
  exact (generateFlowFile_of_type_free_file "/w" "now" (fun text => OK text)
           "/w/a/e.thrift" Examples.same_name false true ["/w/a/e.thrift"]
           Cover.small_file eq_refl).
Defined.

Lemma entry_only_keys (p : string) :
  In p (idls (thrift Cover.entry_only)) ->
  Path.resolve "/w" p = thriftPath Cover.entry_only.
Proof. intros [<- | []]. reflexivity. Defined.

Lemma no_imports_no_block_witness :
  generateImports "/w" Cover.entry_only = "".
Proof.
  exact (proj1 (no_imports_no_block "/w" "now" Cover.entry_only
                  entry_only_keys)).
Defined.

Lemma deep_not_nil : ["sub"; "deep"] <> @nil string.
Proof. discriminate. Defined.

Lemma import_of_file_below_witness :
  generateImports "/w" Cover.one_below
  = "import * as t from 'sub/deep/t.js';".
Proof.
  exact (import_of_file_below "/w" Cover.one_below ["w"; "a"] "e.thrift"
           ["sub"; "deep"] "t.thrift" eq_refl eq_refl eq_refl eq_refl
           deep_not_nil).
Defined.

Lemma import_of_file_outside_witness :
  generateImports "/w" Cover.one_outside
  = "import * as u from '../../b/u.js';".
Proof.
  exact (import_of_file_outside "/w" Cover.one_outside ["w"] "a" ["deep"]
           ["b"] "e.thrift" "u.thrift" eq_refl eq_refl eq_refl eq_refl
           eq_refl).
Defined.

Lemma unsupported_kind_is_skipped_witness :
  convertDefinitionToCode Cover.entry_only Examples.namespace
  = (OK JNull, ["e.thrift: Skipping Namespace ?"])
  /\ generateFlowFile "/w" "today" OK Cover.entry_only
     = (OK ("// @flow" ++ nl ++ nl
            ++ "// Generated by thrift2flow at today" ++ nl
            ++ "// Source: /w/a/e.thrift" ++ nl ++ nl
            ++ "export type ColorValues = 0 | 1 | 2;" ++ nl
            ++ "      export type Color = " ++ dquote ++ "RED" ++ dquote ++ " | "
            ++ dquote ++ "GREEN" ++ dquote ++ " | " ++ dquote ++ "BLUE" ++ dquote ++ ";;" ++ nl ++ nl
            ++ "export type Empty = {||};"),
        ["e.thrift: Skipping Namespace ?"])
  /\ generateFlowFile "/w" "today" OK
       (new "/w" "/w/a/e.thrift"
          (mkThrift [Cover.alias; Examples.namespace; Examples.color]
             ["/w/a/e.thrift"])
          Examples.same_name false true)
     = (Throw TypeError, [])
  /\ generateFlowFile "/w" "today" OK
       (new "/w" "/w/a/e.thrift"
          (mkThrift [Examples.namespace; Cover.alias; Examples.color]
             ["/w/a/e.thrift"])
          Examples.same_name false true)
     = (Throw TypeError, ["e.thrift: Skipping Namespace ?"]).
Proof.
  pose proof (unsupported_kind_is_skipped "/w" "today" OK "/w/a/e.thrift"
                Examples.same_name false true ["/w/a/e.thrift"]
                Examples.namespace namespace_unsupported)
    as [H1 [H2 [_ [H4 H5]]]].
  split; [exact (H1 Cover.small_file) |].
  split; [exact (H2 [Examples.color] [Examples.empty_struct] eq_refl eq_refl) |].
  split.
  - exact (H4 "Id" (BaseType i64 (Some [("js.type", "Long")]))
             [Examples.color]).
  - exact (H5 "Id" (BaseType i64 (Some [("js.type", "Long")]))
             [Examples.color]).
Defined.

End CoverInstances.
